(** * stringIncrement: a shallow embedding and its specification

    The program under study is the function [stringIncrement] of
    [task1-test-cases/src/simple-function.ts].  It receives one JavaScript
    value, checks it against the pattern [/^([A-Za-z]{1,4})(\d{1,4})$/] and
    returns the token whose numeric suffix is one larger, or the string
    ["Error"].

    The embedding keeps the shape of the source: the body is written in a small
    monad that threads the state outside the call frame and can raise a
    JavaScript exception, and every built-in the source calls ([typeof],
    [String.prototype.match], [parseInt], [Number.prototype.toString],
    [String.prototype.repeat], [String.prototype.padStart]) has a definition
    of its own.

    A string is a [string] of the standard library: a character stands for
    a code unit below 256.  The classes of the pattern are ranges of ASCII
    code units, so a code unit above 255 would be rejected like any other
    character outside them. *)

From Stdlib Require Import ZArith QArith Qround Lia Bool List Ascii String
  SpecFloat.

Close Scope Q_scope.
Import ListNotations.

Open Scope string_scope.

(** ** JavaScript values *)

Module JS.

(** Exceptions a built-in can throw. *)
Inductive exn : Type :=
| TypeError
| RangeError.

(** The values a caller can pass.  A number is an IEEE-754 double; an object
    is a reference. *)
Inductive value : Type :=
| Undefined
| Null
| Bool (b : bool)
| Number (x : spec_float)
| Str (s : string)
| Object (ref : nat).

(** The numbers the function computes with: [NaN] or an integer.  Every
    integer that occurs is below [2^53], so the double arithmetic of the
    source is exact on them; [-0] is identified with [0]. *)
Inductive number : Type :=
| NaN
| Int (z : Z).

(** [ToBoolean], the coercion behind [!input]. *)
Definition ToBoolean (v : value) : bool :=
  match v with
  | Undefined | Null => false
  | Bool b => b
  | Number (S754_zero _) | Number S754_nan => false
  | Number _ => true
  | Str s => negb (s =? "")
  | Object _ => true
  end.

(** The [typeof] operator. *)
Definition typeof (v : value) : string :=
  match v with
  | Undefined => "undefined"
  | Null => "object"
  | Bool _ => "boolean"
  | Number _ => "number"
  | Str _ => "string"
  | Object _ => "object"
  end.

(** *** The monad of the function body

    A computation receives the state outside the call frame and gives back
    an outcome together with the state it leaves behind. *)
Inductive outcome (A : Type) : Type :=
| Return (a : A)
| Throw (e : exn).
Arguments Return {A} a.
Arguments Throw {A} e.

Definition M (World A : Type) : Type := World -> outcome A * World.

Definition ret {World A : Type} (a : A) : M World A :=
  fun w => (Return a, w).

Definition throw {World A : Type} (e : exn) : M World A :=
  fun w => (Throw e, w).

Definition bind {World A B : Type} (m : M World A) (k : A -> M World B)
  : M World B :=
  fun w =>
    match m w with
    | (Return a, w') => k a w'
    | (Throw e, w') => (Throw e, w')
    end.

End JS.

Import JS.

Notation "x <- m ;; k" := (bind m (fun x => k))
  (at level 61, m at next level, right associativity).

(** ** Character classes of the pattern *)

(** [[A-Za-z]]: the code unit lies in one of the two ranges. *)
Definition is_letter (c : ascii) : bool :=
  let n := nat_of_ascii c in
  ((65 <=? n) && (n <=? 90) || (97 <=? n) && (n <=? 122))%nat.

(** [\d] without the [u] flag: the code unit lies in ['0'..'9']. *)
Definition is_digit (c : ascii) : bool :=
  let n := nat_of_ascii c in
  ((48 <=? n) && (n <=? 57))%nat.

(** ** The regular expression *)

Module Regex.

(** A greedy bounded repetition [cls{lo,hi}] tried at the head of [s]: every
    way it can match, as the pair of the matched text and the rest, in the
    order the backtracking matcher tries them (longest first). *)
Fixpoint rep (cls : ascii -> bool) (lo hi : nat) (s : string)
  : list (string * string) :=
  match hi with
  | O => if (lo =? 0)%nat then [("", s)] else []
  | S hi' =>
      (match s with
       | String c s' =>
           if cls c
           then map (fun mr => (String c (fst mr), snd mr))
                    (rep cls (pred lo) hi' s')
           else []
       | EmptyString => []
       end)
      ++ (if (lo =? 0)%nat then [("", s)] else [])
  end.

(** The first alternative on which the continuation succeeds. *)
Fixpoint first_success {A B : Type} (k : A -> option B) (l : list A)
  : option B :=
  match l with
  | [] => None
  | a :: l' =>
      match k a with
      | Some b => Some b
      | None => first_success k l'
      end
  end.

(** [/^([A-Za-z]{1,4})(\d{1,4})$/] run on [s].  The pattern has no flag, so
    [^] holds at index 0 only and [$] at the end of the input only; the result
    is the match array (whole match, group 1, group 2) or [None] for [null]. *)
Definition exec (s : string) : option (list string) :=
  first_success
    (fun g1 =>
       first_success
         (fun g2 =>
            if snd g2 =? ""
            then Some [fst g1 ++ fst g2; fst g1; fst g2]
            else None)
         (rep is_digit 1 4 (snd g1)))
    (rep is_letter 1 4 s).

End Regex.

(** ** Built-ins *)

Section Builtins.

Context {World : Type}.

(** [input.match(validFormatRegex)].  Only a string has the method; on
    [null] and [undefined] the property access throws, on the other values
    the call of a missing method does. *)
Definition String_match (input : value) : M World (option (list string)) :=
  match input with
  | Str s => ret (Regex.exec s)
  | _ => throw TypeError
  end.

(** [arr[i]] used as a string.  Out of range the source would read
    [undefined] and throw at the first [.length] on it. *)
Definition at_index (arr : list string) (i : nat) : M World string :=
  match nth_error arr i with
  | Some s => ret s
  | None => throw TypeError
  end.

End Builtins.

(** White space that [parseInt] skips (the code units below 256). *)
Definition is_white_space (c : ascii) : bool :=
  let n := nat_of_ascii c in
  ((9 <=? n) && (n <=? 13) || (n =? 32) || (n =? 160))%nat.

Fixpoint skip_white_space (s : string) : string :=
  match s with
  | String c s' => if is_white_space c then skip_white_space s' else s
  | EmptyString => s
  end.

(** The longest prefix of decimal digits. *)
Fixpoint digit_prefix (s : string) : string :=
  match s with
  | String c s' => if is_digit c then String c (digit_prefix s') else ""
  | EmptyString => ""
  end.

Definition digit_value (c : ascii) : Z :=
  (Z.of_nat (nat_of_ascii c) - 48)%Z.

(** The value of a digit string in base 10, most significant digit first. *)
Fixpoint decimal_value_from (acc : Z) (s : string) : Z :=
  match s with
  | String c s' => decimal_value_from (10 * acc + digit_value c)%Z s'
  | EmptyString => acc
  end.

Definition decimal_value (s : string) : Z := decimal_value_from 0 s.

(** A leading sign: whether it is a minus, and the text after it. *)
Definition strip_sign (s : string) : bool * string :=
  match s with
  | String "-" r => (true, r)
  | String "+" r => (false, r)
  | _ => (false, s)
  end.

(** [parseInt(s, 10)]: skip white space, read a sign, read the longest run
    of digits; [NaN] when there is none. *)
Definition parseInt10 (s : string) : number :=
  let s1 := skip_white_space s in
  let (negative, s2) := strip_sign s1 in
  let z := digit_prefix s2 in
  if z =? "" then NaN
  else Int (if negative then (- decimal_value z)%Z else decimal_value z).

(** [x + y] on numbers. *)
Definition num_add (x y : number) : number :=
  match x, y with
  | Int a, Int b => Int (a + b)%Z
  | _, _ => NaN
  end.

Definition digit_char (d : Z) : ascii :=
  ascii_of_nat (48 + Z.to_nat d).

(** The decimal digits of a natural number, most significant first.  The
    first argument bounds the number of digits. *)
Fixpoint decimal_digits (fuel : nat) (n : Z) : string :=
  match fuel with
  | O => ""
  | S fuel' =>
      if (n <? 10)%Z then String (digit_char n) ""
      else decimal_digits fuel' (n / 10)%Z ++ String (digit_char (n mod 10)%Z) ""
  end.

Definition decimal_repr (n : Z) : string :=
  decimal_digits (S (Z.to_nat (Z.log2 n))) n.

(** [x.toString()] for [NaN] and for an integer below [10^21]. *)
Definition Number_toString (x : number) : string :=
  match x with
  | NaN => "NaN"
  | Int z => if (z <? 0)%Z then "-" ++ decimal_repr (- z)%Z else decimal_repr z
  end.

(** [s.repeat(count)] for a count that is a length. *)
Fixpoint String_repeat (s : string) (count : nat) : string :=
  match count with
  | O => ""
  | S count' => s ++ String_repeat s count'
  end.

(** [s.padStart(maxLength, fillString)]. *)
Definition padStart (s : string) (maxLength : nat) (fillString : string)
  : string :=
  let stringLength := length s in
  if (maxLength <=? stringLength)%nat then s
  else if fillString =? "" then s
  else
    let fillLen := (maxLength - stringLength)%nat in
    substring 0 fillLen (String_repeat fillString fillLen) ++ s.

(** ** The function *)

Section StringIncrement.

Context {World : Type}.

Definition stringIncrement (input : value) : M World string :=
  (* if (!input || typeof input !== 'string') return 'Error'; *)
  if negb (ToBoolean input) || negb (typeof input =? "string")
  then ret "Error"
  else
    (* const match = input.match(validFormatRegex); *)
    match_ <- String_match input ;;
    (* if (!match || match.length < 3) return 'Error'; *)
    match match_ with
    | None => ret "Error"
    | Some arr =>
        if (List.length arr <? 3)%nat then ret "Error"
        else
          letterPart <- at_index arr 1 ;;
          digitPart <- at_index arr 2 ;;
          let currentNumber := parseInt10 digitPart in
          let incrementedNumber := num_add currentNumber (Int 1) in
          let incrementedStr := Number_toString incrementedNumber in
          let newDigitPart :=
            if (4 <? length incrementedStr)%nat then
              String_repeat "0" (length digitPart)
            else if (length digitPart <? length incrementedStr)%nat then
              incrementedStr
            else
              padStart incrementedStr (length digitPart) "0" in
          ret (letterPart ++ newDigitPart)
    end.

End StringIncrement.

(** ** The specification's vocabulary *)

(** The ASCII letters and the decimal digits, written out. *)
Definition ascii_letters : string :=
  "ABCDEFGHIJKLMNOPQRSTUVWXYZabcdefghijklmnopqrstuvwxyz".

Definition decimal_digit_chars : string := "0123456789".

Fixpoint occurs (c : ascii) (s : string) : bool :=
  match s with
  | String c' s' => (c =? c')%char || occurs c s'
  | EmptyString => false
  end.

Fixpoint all_chars (cls : ascii -> bool) (s : string) : bool :=
  match s with
  | String c s' => cls c && all_chars cls s'
  | EmptyString => true
  end.

(** A token splits into a prefix of 1 to 4 ASCII letters and a suffix of 1
    to 4 decimal digits. *)
Definition token (prefix suffix : string) : bool :=
  (1 <=? length prefix)%nat && (length prefix <=? 4)%nat
  && all_chars (fun c => occurs c ascii_letters) prefix
  && (1 <=? length suffix)%nat && (length suffix <=? 4)%nat
  && all_chars (fun c => occurs c decimal_digit_chars) suffix.

(** A valid input is a string that is a token. *)
Definition valid_input (v : value) : Prop :=
  exists prefix suffix, v = Str (prefix ++ suffix) /\ token prefix suffix = true.

(** The longest run of letters at the head of a string. *)
Fixpoint letter_prefix (s : string) : string :=
  match s with
  | String c s' =>
      if occurs c ascii_letters then String c (letter_prefix s') else ""
  | EmptyString => ""
  end.

(** The decimal representation of the suffix's value plus one. *)
Definition incremented (suffix : string) : string :=
  decimal_repr (decimal_value suffix + 1)%Z.

(** Overflow: the incremented value needs more than 4 digits. *)
Definition overflows (suffix : string) : Prop :=
  (4 < length (incremented suffix))%nat.

(** The last character of a string, if it has one. *)
Fixpoint last_char (s : string) : option ascii :=
  match s with
  | EmptyString => None
  | String c EmptyString => Some c
  | String _ s' => last_char s'
  end.

(** ** Calls in a chain

    [n] successive calls, each on the string the call before returned. *)
Fixpoint increment_chain {World : Type} (n : nat) (s : string)
  : M World string :=
  match n with
  | O => ret s
  | S n' => r <- stringIncrement (Str s) ;; increment_chain n' r
  end.

(** ** The unit tests of the function

    The two tables of [tests/simple-function.test.ts] and the check each
    test makes. *)
Module TestSuite.

Record valid_case : Type :=
  { input : string; expected : string; description : string }.

Definition validTestCases : list valid_case :=
  [ {| input := "A1"; expected := "A2";
       description := "minimum valid format (1 letter, 1 digit)" |};
    {| input := "ABCD1234"; expected := "ABCD1235";
       description := "maximum valid format (4 letters, 4 digits)" |};
    {| input := "F001"; expected := "F002";
       description := "single letter, multiple digits with leading zeros" |};
    {| input := "XYZ5"; expected := "XYZ6";
       description := "multiple letters, single digit" |};
    {| input := "FX001"; expected := "FX002";
       description := "multiple letters, multiple digits" |};
    {| input := "fx001"; expected := "fx002";
       description := "case preservation - lowercase" |};
    {| input := "FxYz123"; expected := "FxYz124";
       description := "case preservation - mixed case" |};
    {| input := "A9"; expected := "A10";
       description := "digit expansion - 1 to 2 digits" |};
    {| input := "A99"; expected := "A100";
       description := "digit expansion - 2 to 3 digits" |};
    {| input := "A999"; expected := "A1000";
       description := "digit expansion - 3 to 4 digits" |};
    {| input := "A009"; expected := "A010";
       description := "leading zeros preservation" |};
    {| input := "A010"; expected := "A011";
       description := "010 interpreted as 10, not as 8, because its not binary" |};
    {| input := "A9999"; expected := "A0000";
       description := "overflow - single letter" |};
    {| input := "ZZ9999"; expected := "ZZ0000";
       description := "overflow - multiple letters" |} ].

Record invalid_case : Type :=
  { invalid_input : value; invalid_description : string }.

Definition invalidTestCases : list invalid_case :=
  [ {| invalid_input := Str "123";
       invalid_description := "no letters - digits only" |};
    {| invalid_input := Str "ABC";
       invalid_description := "no digits - letters only" |};
    {| invalid_input := Str "ABCDE1";
       invalid_description := "too many letters (5 > 4)" |};
    {| invalid_input := Str "A12345";
       invalid_description := "too many digits (5 > 4)" |};
    {| invalid_input := Str "A1B2";
       invalid_description := "mixed format - letters and digits interleaved" |};
    {| invalid_input := Str "123ABC";
       invalid_description := "mixed format - digits before letters" |};
    {| invalid_input := Str "A-1";
       invalid_description := "special characters not allowed" |};
    {| invalid_input := Str "A 1";
       invalid_description := "spaces not allowed" |};
    {| invalid_input := Str "";
       invalid_description := "empty string" |};
    {| invalid_input := Str "   ";
       invalid_description := "whitespace only" |};
    {| invalid_input := Str "  A1";
       invalid_description := "leading whitespace" |};
    {| invalid_input := Str "A1  ";
       invalid_description := "trailing whitespace" |};
    {| invalid_input := Null; invalid_description := "null input" |};
    {| invalid_input := Undefined;
       invalid_description := "undefined input" |};
    {| invalid_input := Number (S754_finite false 8655355533852672 (-46));
       invalid_description := "number input" |};
    {| invalid_input := Bool true; invalid_description := "boolean input" |};
    {| invalid_input := Object 0; invalid_description := "object input" |} ].

(** [expect(actual).toBe(expected)] on the outcome of a call: the call
    returned, and returned that string. *)
Definition toBe (actual : outcome string) (expected : string) : bool :=
  match actual with
  | Return s => s =? expected
  | Throw _ => false
  end.

(** The [forEach] of the suite over a table: every test passes. *)
Definition valid_tests_pass : bool :=
  forallb (fun c => toBe (fst (stringIncrement (Str (input c)) tt))
                         (expected c))
          validTestCases.

Definition invalid_tests_pass : bool :=
  forallb (fun c => toBe (fst (stringIncrement (invalid_input c) tt)) "Error")
          invalidTestCases.

End TestSuite.

(** ** Numbers that need not be integers

    A JavaScript number as a rational, an infinity or [NaN]; every finite
    double is a rational.  [-0] is identified with [0]. *)
Module Num.

Inductive num : Type :=
| Finite (q : Q)
| Infinity (negative : bool)
| NotANumber.

Definition of_Z (z : Z) : num := Finite (inject_Z z).

(** [a <= b] *)
Definition leb (a b : num) : bool :=
  match a, b with
  | NotANumber, _ => false
  | _, NotANumber => false
  | Infinity true, _ => true
  | _, Infinity false => true
  | Infinity false, _ => false
  | _, Infinity true => false
  | Finite x, Finite y => Qle_bool x y
  end.

(** [a < b] *)
Definition ltb (a b : num) : bool := leb a b && negb (leb b a).

(** [a === b] *)
Definition strict_equal (a b : num) : bool := leb a b && leb b a.

(** Truthiness: every number but [0] and [NaN]. *)
Definition truthy (a : num) : bool :=
  match a with
  | Finite q => negb (Qeq_bool q (inject_Z 0))
  | Infinity _ => true
  | NotANumber => false
  end.

Definition is_integer (q : Q) : bool := Qeq_bool q (inject_Z (Qfloor q)).

(** [`${a}`].  An integer below [10^21] is printed with all its digits;
    the text of any other finite number is the engine's, given by
    [number_text]. *)
Definition to_string (number_text : Q -> string) (a : num) : string :=
  match a with
  | Finite q =>
      if is_integer q && (Z.abs (Qfloor q) <? 10 ^ 21)%Z
      then Number_toString (Int (Qfloor q))
      else number_text q
  | Infinity false => "Infinity"
  | Infinity true => "-Infinity"
  | NotANumber => "NaN"
  end.

End Num.

(** ** [BrowserUtils.retryOperation]

    The loop of [tests/helpers/browser-utils.ts] that runs an operation up
    to [maxRetries] times, sleeping [baseDelay * Math.pow(2, attempt - 1)]
    after a failed attempt.  The promise becomes a result, [await]
    sequencing.  The state records how often the operation has been invoked
    and the durations passed to [sleep], in order.  The operation is given
    by the outcome of each of its invocations, the first being invocation
    0: a value, or whatever it throws.  [maxRetries] is any number.  The loop
    need not end ([maxRetries] may be [Infinity]), so a run is given a number
    of loop tests it may make and is [None] when they do not suffice.  What
    the loop writes to the console is left out. *)
Module Retry.

(** What can be thrown, as far as the loop can tell values apart: an object
    with a [message] that reads as the given string ([new Error(message)]
    above all, under its [name]), another value other than [null] and
    [undefined], which has no [message], [null], and [undefined]. *)
Inductive thrown : Type :=
| ErrorObject (name message : string)
| WithoutMessage (text : string)
| NullValue
| UndefinedValue.

Inductive result (T : Type) : Type :=
| Resolved (v : T)
| Rejected (e : thrown).
Arguments Resolved {T} v.
Arguments Rejected {T} e.

(** [2^53]: a double holds every integer up to it. *)
Definition max_exact : Z := 9007199254740992.

(** [attempt++] on a double: [2^53 + 1] rounds back to [2^53]. *)
Definition increment (attempt : Z) : Z :=
  if (attempt <? max_exact)%Z then (attempt + 1)%Z else attempt.

(** The value of [attempt] at invocation [i] of the operation. *)
Definition attempt_of (i : nat) : Z := Z.min (Z.of_nat i + 1) max_exact.

Section RetryOperation.

(** The values the operation resolves with and the numbers passed to
    [sleep]. *)
Context {T D : Type}.

Record state : Type := { calls : nat; sleeps : list D }.

Variable operation : nat -> thrown + T.
Variable maxRetries : Num.num.
Variable baseDelay : D.

(** [baseDelay * Math.pow(2, n)] as the engine computes it. *)
Variable times_pow2 : D -> Z -> D.

(** The engine's text for a number that is not an integer below [10^21],
    and its message for reading [message] of [null] or [undefined]. *)
Variable number_text : Q -> string.
Variable type_error_text : thrown -> string.

(** [await operation()] *)
Definition call_operation (st : state) : (thrown + T) * state :=
  (operation (calls st), {| calls := S (calls st); sleeps := sleeps st |}).

(** [await this.sleep(ms)] *)
Definition sleep (ms : D) (st : state) : state :=
  {| calls := calls st; sleeps := (sleeps st ++ [ms])%list |}.

(** [throw lastError!] after the loop: the variable may never have been
    assigned. *)
Definition throw_last (lastError : option thrown) : thrown :=
  match lastError with
  | Some e => e
  | None => UndefinedValue
  end.

(** [lastError.message]: [None] when reading it throws. *)
Definition message_of (e : thrown) : option string :=
  match e with
  | ErrorObject _ message => Some message
  | WithoutMessage _ => Some "undefined"
  | NullValue => None
  | UndefinedValue => None
  end.

(** The [throw new Error(...)] of the last attempt. *)
Definition exhausted_error (lastError : thrown) : thrown :=
  match message_of lastError with
  | Some message =>
      ErrorObject "Error"
        ("Operation failed after "
         ++ Num.to_string number_text maxRetries
         ++ " attempts. Last error: " ++ message)
  | None => ErrorObject "TypeError" (type_error_text lastError)
  end.

(** The [for] loop from [attempt] on; [fuel] is the number of tests of
    [attempt <= maxRetries] the run may make. *)
Fixpoint retry_loop (fuel : nat) (attempt : Z) (lastError : option thrown)
         (st : state) : option (result T * state) :=
  match fuel with
  | O => None
  | S fuel' =>
      if Num.leb (Num.of_Z attempt) maxRetries then
        match call_operation st with
        | (inr v, st1) => Some (Resolved v, st1)
        | (inl error, st1) =>
            if Num.strict_equal (Num.of_Z attempt) maxRetries then
              Some (Rejected (exhausted_error error), st1)
            else
              let delay := times_pow2 baseDelay (attempt - 1) in
              retry_loop fuel' (increment attempt) (Some error)
                         (sleep delay st1)
        end
      else Some (Rejected (throw_last lastError), st)
  end.

Definition retryOperation (fuel : nat) (st : state)
  : option (result T * state) :=
  retry_loop fuel 1 None st.

(** The state before the first invocation. *)
Definition initial : state := {| calls := 0; sleeps := [] |}.

(** The delays after the first [k] invocations, all failed. *)
Definition backoff (k : nat) : list D :=
  map (fun i => times_pow2 baseDelay (attempt_of i - 1)) (seq 0 k).

(** [baseDelay * 2^0], ..., [baseDelay * 2^(k-1)] *)
Definition doubling (k : nat) : list D :=
  map (fun i => times_pow2 baseDelay (Z.of_nat i)) (seq 0 k).

End RetryOperation.

End Retry.

(** ** [DateUtils]

    The functions [isSameDate], [looksLikeDate] and [validateTodayFunction]
    of [tests/helpers/date-utils.ts]. *)

(** Patterns that are a sequence of repeated character classes between [^]
    and [$], tried the way the backtracking matcher tries them. *)
Module Pattern.

(** [cls{lo,hi}]; no upper bound for [cls+]. *)
Record item : Type :=
  { cls : ascii -> bool; lo : nat; hi : option nat }.

Definition bound (it : item) (s : string) : nat :=
  match hi it with
  | Some h => h
  | None => length s
  end.

(** [pattern.test(s)] *)
Fixpoint test (items : list item) (s : string) : bool :=
  match items with
  | [] => s =? ""
  | it :: rest =>
      existsb (fun mr => test rest (snd mr))
              (Regex.rep (cls it) (lo it) (bound it s) s)
  end.

(** [s.match(pattern)]: the text each item matched, in the first way the
    matcher finds, or [None] for [null]. *)
Fixpoint exec (items : list item) (s : string) : option (list string) :=
  match items with
  | [] => if s =? "" then Some [] else None
  | it :: rest =>
      Regex.first_success
        (fun mr => option_map (cons (fst mr)) (exec rest (snd mr)))
        (Regex.rep (cls it) (lo it) (bound it s) s)
  end.

(** [\d{lo,hi}] *)
Definition digits (lo hi : nat) : item :=
  {| cls := is_digit; lo := lo; hi := Some hi |}.

(** [[A-Za-z]{lo,hi}] *)
Definition letters (lo hi : nat) : item :=
  {| cls := is_letter; lo := lo; hi := Some hi |}.

(** a literal character *)
Definition char (c : ascii) : item :=
  {| cls := Ascii.eqb c; lo := 1; hi := Some 1 |}.

(** a literal character followed by [?] *)
Definition optional (c : ascii) : item :=
  {| cls := Ascii.eqb c; lo := 0; hi := Some 1 |}.

(** [\s+]: white space is what [is_white_space] holds. *)
Definition spaces : item :=
  {| cls := is_white_space; lo := 1; hi := None |}.

End Pattern.

Module DateUtils.

(** [s.trim()]: the white space at both ends removed. *)
Fixpoint trim_end (s : string) : string :=
  match s with
  | EmptyString => ""
  | String c s' =>
      match trim_end s' with
      | EmptyString => if is_white_space c then "" else String c ""
      | t => String c t
      end
  end.

Definition trim (s : string) : string := trim_end (skip_white_space s).

Definition datePatterns : list (list Pattern.item) :=
  [ (* /^\d{1,2}\/\d{1,2}\/\d{4}$/ *)
    [Pattern.digits 1 2; Pattern.char "/"; Pattern.digits 1 2;
     Pattern.char "/"; Pattern.digits 4 4];
    (* /^\d{4}-\d{1,2}-\d{1,2}$/ *)
    [Pattern.digits 4 4; Pattern.char "-"; Pattern.digits 1 2;
     Pattern.char "-"; Pattern.digits 1 2];
    (* /^\d{1,2}-\d{1,2}-\d{4}$/ *)
    [Pattern.digits 1 2; Pattern.char "-"; Pattern.digits 1 2;
     Pattern.char "-"; Pattern.digits 4 4];
    (* /^[A-Za-z]{3,9}\s+\d{1,2},?\s+\d{4}$/ *)
    [Pattern.letters 3 9; Pattern.spaces; Pattern.digits 1 2;
     Pattern.optional ","; Pattern.spaces; Pattern.digits 4 4] ].

Definition looksLikeDate (value : string) : bool :=
  existsb (fun pattern => Pattern.test pattern (trim value)) datePatterns.

(** A [Date] object: its time value in milliseconds since the epoch, or
    [None] when the time value is [NaN] (an invalid date). *)
Definition Date : Type := option Z.

(** [a === b] on numbers *)
Definition strict_equal (a b : number) : bool :=
  match a, b with
  | Int x, Int y => (x =? y)%Z
  | _, _ => false
  end.

Section LocalTime.

(** The year, the month and the day of the month of a time value in the
    time zone of the process. *)
Variables YearFromTime MonthFromTime DateFromTime : Z -> Z.

Definition getFullYear (d : Date) : number :=
  match d with Some t => Int (YearFromTime t) | None => NaN end.

Definition getMonth (d : Date) : number :=
  match d with Some t => Int (MonthFromTime t) | None => NaN end.

Definition getDate (d : Date) : number :=
  match d with Some t => Int (DateFromTime t) | None => NaN end.

Definition isSameDate (date1 date2 : Date) : bool :=
  strict_equal (getFullYear date1) (getFullYear date2)
  && strict_equal (getMonth date1) (getMonth date2)
  && strict_equal (getDate date1) (getDate date2).

Record DateValidationResult : Type :=
  { isValid : bool; expectedDate : string; actualDate : string;
    message : string }.

(** The clock and the built-in [Date]. *)

(** the time value of [new Date()] *)
Variable now : Z.

(** [date.toLocaleDateString()] *)
Variable toLocaleDateString : Date -> string.

(** [new Date(s)] for a string: what it accepts is left to the engine. *)
Variable Date_parse : string -> Date.

(** The time value of [new Date(year, month, day)] in the local zone for
    integers; any month and day are carried over into the next months and
    years, and the years of four digits are within the range of time
    values, so the date is valid. *)
Variable MakeLocalDate : Z -> Z -> Z -> Z.

Definition Date_of_fields (year month day : number) : Date :=
  match year, month, day with
  | Int y, Int m, Int d => Some (MakeLocalDate y m d)
  | _, _, _ => None
  end.

(** [isNaN(date.getTime())] *)
Definition isNaN_time (d : Date) : bool :=
  match d with Some _ => false | None => true end.

(** [n - 1] *)
Definition minus_one (n : number) : number := num_add n (Int (-1)).

(** [/^(\d{1,2})\/(\d{1,2})\/(\d{4})$/] and
    [/^(\d{4})-(\d{1,2})-(\d{1,2})$/] *)
Definition slash_pattern : list Pattern.item :=
  [Pattern.digits 1 2; Pattern.char "/"; Pattern.digits 1 2;
   Pattern.char "/"; Pattern.digits 4 4].

Definition iso_pattern : list Pattern.item :=
  [Pattern.digits 4 4; Pattern.char "-"; Pattern.digits 1 2;
   Pattern.char "-"; Pattern.digits 1 2].

(** The three groups of a match of one of the two patterns. *)
Definition groups (pattern : list Pattern.item) (s : string)
  : option (string * string * string) :=
  match Pattern.exec pattern s with
  | Some [g1; _; g2; _; g3] => Some (g1, g2, g3)
  | _ => None
  end.

(** [validateTodayFunction].  [parseInt] is called without a radix on
    groups of digits, where it reads base 10.  Nothing in the [try] block
    throws on a string, so the [catch] is left out. *)
Definition validateTodayFunction (actualValue : string)
  : DateValidationResult :=
  let today : Date := Some now in
  let expectedDate := toLocaleDateString today in
  let cleanValue := trim actualValue in
  (* Approach 1: direct parsing *)
  let parsedDate := Date_parse cleanValue in
  let parsedDate :=
    if isNaN_time parsedDate then
      (* MM/DD/YYYY *)
      let parsedDate :=
        match groups slash_pattern cleanValue with
        | Some (g1, g2, g3) =>
            Date_of_fields (parseInt10 g3) (minus_one (parseInt10 g1))
                           (parseInt10 g2)
        | None => parsedDate
        end in
      (* DD/MM/YYYY *)
      let parsedDate :=
        if isNaN_time parsedDate then
          match groups slash_pattern cleanValue with
          | Some (g1, g2, g3) =>
              Date_of_fields (parseInt10 g3) (minus_one (parseInt10 g2))
                             (parseInt10 g1)
          | None => parsedDate
          end
        else parsedDate in
      (* YYYY-MM-DD *)
      let parsedDate :=
        if isNaN_time parsedDate then
          match groups iso_pattern cleanValue with
          | Some (g1, g2, g3) =>
              Date_of_fields (parseInt10 g1) (minus_one (parseInt10 g2))
                             (parseInt10 g3)
          | None => parsedDate
          end
        else parsedDate in
      parsedDate
    else parsedDate in
  if isNaN_time parsedDate then
    {| isValid := false;
       expectedDate := expectedDate;
       actualDate := cleanValue;
       message := "Unable to parse date: " ++ cleanValue |}
  else
    let isToday := isSameDate parsedDate today in
    {| isValid := isToday;
       expectedDate := expectedDate;
       actualDate := cleanValue;
       message :=
         if isToday then "TODAY() function returned correct current date"
         else "Date mismatch: expected " ++ expectedDate ++ ", got "
              ++ cleanValue |}.

End LocalTime.

End DateUtils.

(** ** [ConfigLoader]

    The configuration loader of [tests/helpers/config-loader.ts].  A
    configuration is what [JSON.parse] gave for a file that follows the
    interface [TestConfiguration]: every field may be absent (or [null]),
    and a field that is there holds a value of the type the interface
    declares; a number is an integer or [NaN].  [ConfigJson] below has
    [validateConfig] on every value [JSON.parse] can give.  The file system
    and the environment variables are handed to the functions that read
    them.  What the functions write to the console is left out. *)
Module ConfigLoader.

Record LoginCredentials : Type :=
  { username : option string; password : option string }.

Record Timeouts : Type :=
  { navigation : option number; element : option number;
    test : option number }.

Record ExcelConfig : Type :=
  { baseUrl : option string;
    credentials : option LoginCredentials;
    timeouts : option Timeouts }.

Record Viewport : Type :=
  { width : option number; height : option number }.

Record BrowserConfig : Type :=
  { headless : option bool; viewport : option Viewport;
    slowMo : option number }.

Record TestConfiguration : Type :=
  { excel : option ExcelConfig; browser : option BrowserConfig }.

(** What a function throws: [new Error(message)], the [TypeError] of the
    engine for a property of [undefined], named by the property, or
    another error object, given by its [name] and its [message]: the
    [SyntaxError] of [JSON.parse], the system error of [fs.readFileSync]. *)
Inductive error : Type :=
| Error (message : string)
| TypeError (property : string)
| Thrown (name message : string).

(** [process.env] *)
Definition environment : Type := string -> option string.

(** [a?.b] *)
Definition chain {A B : Type} (a : option A) (b : A -> option B)
  : option B :=
  match a with
  | Some x => b x
  | None => None
  end.

(** Truthiness of a string and of a number that may be [undefined]. *)
Definition truthy_string (s : option string) : bool :=
  match s with
  | Some s => negb (s =? "")
  | None => false
  end.

Definition truthy_number (n : option number) : bool :=
  match n with
  | Some (Int z) => negb (z =? 0)%Z
  | Some NaN => false
  | None => false
  end.

(** [n < 1000] for a number that is there. *)
Definition below_1000 (n : option number) : bool :=
  match n with
  | Some (Int z) => (z <? 1000)%Z
  | Some NaN => false
  | None => false
  end.

(** [s.includes(sub)] *)
Fixpoint includes (s sub : string) : bool :=
  String.prefix sub s
  || match s with
     | String _ s' => includes s' sub
     | EmptyString => false
     end.

(** [s.toLowerCase()] on code units below 256. *)
Definition to_lower_char (c : ascii) : ascii :=
  let n := nat_of_ascii c in
  if ((65 <=? n) && (n <=? 90)
      || (192 <=? n) && (n <=? 222) && negb (n =? 215))%nat
  then ascii_of_nat (n + 32)
  else c.

Fixpoint toLowerCase (s : string) : string :=
  match s with
  | String c s' => String (to_lower_char c) (toLowerCase s')
  | EmptyString => ""
  end.

Definition newline : string := String "010" "".

(** [errors.join('\n')] *)
Fixpoint join_lines (errors : list string) : string :=
  match errors with
  | [] => ""
  | [e] => e
  | e :: rest => e ++ newline ++ join_lines rest
  end.

(** [if (cond) errors.push(message)] *)
Definition push_if (cond : bool) (message : string) (errors : list string)
  : list string :=
  if cond then (errors ++ [message])%list else errors.

(** The list [errors] before the test of its length. *)
Definition validation_errors (config : TestConfiguration) : list string :=
  let errors := [] in
  let errors :=
    push_if
      (negb (truthy_string
               (chain (chain (excel config) credentials) username)))
      "Excel username is required" errors in
  let errors :=
    push_if
      (negb (truthy_string
               (chain (chain (excel config) credentials) password)))
      "Excel password is required" errors in
  let errors :=
    push_if (negb (truthy_string (chain (excel config) baseUrl)))
            "Excel base URL is required" errors in
  let errors :=
    push_if
      (negb (truthy_number
               (chain (chain (browser config) viewport) width))
       || negb (truthy_number
                  (chain (chain (browser config) viewport) height)))
      "Browser viewport dimensions are required" errors in
  let errors :=
    push_if
      (truthy_number (chain (chain (excel config) timeouts) navigation)
       && below_1000 (chain (chain (excel config) timeouts) navigation))
      "Navigation timeout must be at least 1000ms" errors in
  errors.

(** [validateConfig]: throws, or returns after it has or has not warned
    about template credentials. *)
Definition validateConfig (config : TestConfiguration) : error + bool :=
  let errors := validation_errors config in
  if (0 <? List.length errors)%nat then
    inl (Error ("Configuration validation failed:" ++ newline
                ++ join_lines errors))
  else
    match excel config with
    | None => inl (TypeError "credentials")
    | Some ex =>
        match credentials ex with
        | None => inl (TypeError "username")
        | Some cr =>
            match username cr with
            | None => inl (TypeError "includes")
            | Some u => inr (includes u "example.com")
            end
        end
    end.

(** The assignments of [applyEnvironmentOverrides], each on the copy made
    so far. *)
Definition set_username (v : string) (c : TestConfiguration)
  : error + TestConfiguration :=
  match excel c with
  | None => inl (TypeError "credentials")
  | Some ex =>
      match credentials ex with
      | None => inl (TypeError "username")
      | Some cr =>
          inr {| excel :=
                   Some {| baseUrl := baseUrl ex;
                           credentials :=
                             Some {| username := Some v;
                                     password := password cr |};
                           timeouts := timeouts ex |};
                 browser := browser c |}
      end
  end.

Definition set_password (v : string) (c : TestConfiguration)
  : error + TestConfiguration :=
  match excel c with
  | None => inl (TypeError "credentials")
  | Some ex =>
      match credentials ex with
      | None => inl (TypeError "password")
      | Some cr =>
          inr {| excel :=
                   Some {| baseUrl := baseUrl ex;
                           credentials :=
                             Some {| username := username cr;
                                     password := Some v |};
                           timeouts := timeouts ex |};
                 browser := browser c |}
      end
  end.

Definition set_headless (v : string) (c : TestConfiguration)
  : error + TestConfiguration :=
  match browser c with
  | None => inl (TypeError "headless")
  | Some br =>
      inr {| excel := excel c;
             browser :=
               Some {| headless := Some (toLowerCase v =? "true");
                       viewport := viewport br;
                       slowMo := slowMo br |} |}
  end.

Definition set_slowMo (v : string) (c : TestConfiguration)
  : error + TestConfiguration :=
  match browser c with
  | None => inl (TypeError "slowMo")
  | Some br =>
      inr {| excel := excel c;
             browser :=
               Some {| headless := headless br;
                       viewport := viewport br;
                       slowMo := Some (parseInt10 v) |} |}
  end.

Definition set_test_timeout (v : string) (c : TestConfiguration)
  : error + TestConfiguration :=
  match excel c with
  | None => inl (TypeError "timeouts")
  | Some ex =>
      match timeouts ex with
      | None => inl (TypeError "test")
      | Some tm =>
          inr {| excel :=
                   Some {| baseUrl := baseUrl ex;
                           credentials := credentials ex;
                           timeouts :=
                             Some {| navigation := navigation tm;
                                     element := element tm;
                                     test := Some (parseInt10 v) |} |};
                 browser := browser c |}
      end
  end.

(** [if (process.env.NAME) { ... }] *)
Definition override (env : environment) (name : string)
           (assign : string -> TestConfiguration -> error + TestConfiguration)
           (c : error + TestConfiguration) : error + TestConfiguration :=
  match c with
  | inl e => inl e
  | inr c =>
      match env name with
      | Some v => if v =? "" then inr c else assign v c
      | None => inr c
      end
  end.

Definition applyEnvironmentOverrides (env : environment)
           (config : TestConfiguration) : error + TestConfiguration :=
  let overriddenConfig := inr config in
  let overriddenConfig :=
    override env "EXCEL_USERNAME" set_username overriddenConfig in
  let overriddenConfig :=
    override env "EXCEL_PASSWORD" set_password overriddenConfig in
  let overriddenConfig :=
    override env "HEADLESS" set_headless overriddenConfig in
  let overriddenConfig :=
    override env "SLOW_MO" set_slowMo overriddenConfig in
  let overriddenConfig :=
    override env "TEST_TIMEOUT" set_test_timeout overriddenConfig in
  overriddenConfig.

(** [isCI] *)
Definition isCI (env : environment) : bool :=
  truthy_string (env "CI")
  || truthy_string (env "GITHUB_ACTIONS")
  || truthy_string (env "JENKINS_URL").

(** What a call of [loadConfig] finds outside the loader: the two paths
    [findConfigFile] builds, which files exist, what reading and parsing a
    file gives, the environment variables, and the wording of the engine
    for a [TypeError]. *)
Record world : Type :=
  { configFile : string;
    templateFile : string;
    existsSync : string -> bool;
    read_and_parse : string -> error + TestConfiguration;
    env : environment;
    type_error_text : string -> string }.

(** [`${error}`], which is [Error.prototype.toString]: the name, the
    message, or both with a colon between them. *)
Definition error_string (w : world) (e : error) : string :=
  match e with
  | Error m => if m =? "" then "Error" else "Error: " ++ m
  | TypeError p => "TypeError: " ++ type_error_text w p
  | Thrown name m =>
      if name =? "" then m
      else if m =? "" then name
      else name ++ ": " ++ m
  end.

Definition findConfigFile (w : world) : error + string :=
  if existsSync w (configFile w) then inr (configFile w)
  else if existsSync w (templateFile w) then inr (templateFile w)
  else inl (Error "No configuration file found. Please create config/test-config.json").

Definition loadConfigFromFile (w : world) (filePath : string)
  : error + TestConfiguration :=
  match read_and_parse w filePath with
  | inr config => inr config
  | inl e =>
      inl (Error ("Failed to parse configuration file " ++ filePath
                  ++ ": " ++ error_string w e))
  end.

(** The [catch] of [loadConfig]. *)
Definition loading_failed (w : world) (e : error) : error :=
  Error ("Configuration loading failed: " ++ error_string w e).

(** [loadConfig] on the loader whose field [config] is [cached]: the result
    and the field afterwards. *)
Definition loadConfig (w : world) (cached : option TestConfiguration)
  : (error + TestConfiguration) * option TestConfiguration :=
  match cached with
  | Some config => (inr config, cached)
  | None =>
      match findConfigFile w with
      | inl e => (inl (loading_failed w e), None)
      | inr configPath =>
          match loadConfigFromFile w configPath with
          | inl e => (inl (loading_failed w e), None)
          | inr fileConfig =>
              match applyEnvironmentOverrides (env w) fileConfig with
              | inl e => (inl (loading_failed w e), None)
              | inr config =>
                  match validateConfig config with
                  | inl e => (inl (loading_failed w e), Some config)
                  | inr _ => (inr config, Some config)
                  end
              end
          end
      end
  end.

End ConfigLoader.


(** ** [ConfigLoader.validateConfig] on any parsed value

    [JSON.parse] checks no type: the cast [as TestConfiguration] of
    [loadConfigFromFile] is erased, and [validateConfig] tests what it finds
    by truthiness and by [<].  Here a configuration is any value
    [JSON.parse] can give. *)
Module ConfigJson.
Import ConfigLoader.

(** An object is the list of its own properties; the first binding of a
    name counts. *)
#[local] Unset Elimination Schemes.
Inductive json : Type :=
| JNull
| JBool (b : bool)
| JNumber (n : Num.num)
| JString (s : string)
| JArray (items : list json)
| JObject (properties : list (string * json)).
#[local] Set Elimination Schemes.

(** A value, or [undefined]. *)
Definition value : Type := option json.

Fixpoint lookup (name : string) (properties : list (string * json))
  : value :=
  match properties with
  | [] => None
  | (k, v) :: rest => if k =? name then Some v else lookup name rest
  end.

(** [v.name] on a value [v] other than [null], for the names
    [validateConfig] reads, which no prototype has except [includes]: only
    an object has such a property. *)
Definition property (v : json) (name : string) : value :=
  match v with
  | JObject properties => lookup name properties
  | _ => None
  end.

(** [v?.name] *)
Definition optional (v : value) (name : string) : value :=
  match v with
  | None => None
  | Some JNull => None
  | Some x => property x name
  end.

(** [v.name], which throws on [null] and [undefined]. *)
Definition member (v : value) (name : string) : error + value :=
  match v with
  | None => inl (TypeError name)
  | Some JNull => inl (TypeError name)
  | Some x => inr (property x name)
  end.

Definition truthy (v : value) : bool :=
  match v with
  | None => false
  | Some JNull => false
  | Some (JBool b) => b
  | Some (JNumber n) => Num.truthy n
  | Some (JString s) => negb (s =? "")
  | Some (JArray _) => true
  | Some (JObject _) => true
  end.

(** [username.includes('example.com')]: the method of a string or of an
    array; no other value has a function [includes]. *)
Definition call_includes (username : value) : error + bool :=
  match username with
  | Some (JString s) => inr (includes s "example.com")
  | Some (JArray items) =>
      inr (existsb (fun item => match item with
                                | JString s => s =? "example.com"
                                | _ => false
                                end) items)
  | _ => inl (TypeError "includes")
  end.

Section Validate.

(** The number the engine converts a string, an array or an object to. *)
Variable to_number : json -> Num.num.

(** [ToNumber] *)
Definition number_of (v : value) : Num.num :=
  match v with
  | None => Num.NotANumber
  | Some JNull => Num.of_Z 0
  | Some (JBool b) => Num.of_Z (if b then 1 else 0)
  | Some (JNumber n) => n
  | Some x => to_number x
  end.

(** [v < 1000] *)
Definition below_1000 (v : value) : bool :=
  Num.ltb (number_of v) (Num.of_Z 1000).

(** [config.excel?.timeouts?.navigation
     && config.excel.timeouts.navigation < 1000] as a condition. *)
Definition navigation_too_short (config : json) : error + bool :=
  if truthy (optional (optional (property config "excel") "timeouts")
                      "navigation")
  then
    match member (property config "excel") "timeouts" with
    | inl e => inl e
    | inr timeouts =>
        match member timeouts "navigation" with
        | inl e => inl e
        | inr navigation => inr (below_1000 navigation)
        end
    end
  else inr false.

(** The list [errors] before the navigation rule. *)
Definition required_errors (config : json) : list string :=
  let excel := property config "excel" in
  let browser := property config "browser" in
  let errors := [] in
  let errors :=
    push_if (negb (truthy (optional (optional excel "credentials")
                                    "username")))
            "Excel username is required" errors in
  let errors :=
    push_if (negb (truthy (optional (optional excel "credentials")
                                    "password")))
            "Excel password is required" errors in
  let errors :=
    push_if (negb (truthy (optional excel "baseUrl")))
            "Excel base URL is required" errors in
  let errors :=
    push_if
      (negb (truthy (optional (optional browser "viewport") "width"))
       || negb (truthy (optional (optional browser "viewport") "height")))
      "Browser viewport dimensions are required" errors in
  errors.

(** [validateConfig]: throws, or returns after it has or has not warned
    about template credentials. *)
Definition validateConfig (config : json) : error + bool :=
  match config with
  | JNull => inl (TypeError "excel")
  | _ =>
      let errors := required_errors config in
      match navigation_too_short config with
      | inl e => inl e
      | inr too_short =>
          let errors :=
            push_if too_short "Navigation timeout must be at least 1000ms"
                    errors in
          if (0 <? List.length errors)%nat then
            inl (Error ("Configuration validation failed:" ++ newline
                        ++ join_lines errors))
          else
            match member (property config "excel") "credentials" with
            | inl e => inl e
            | inr credentials =>
                match member credentials "username" with
                | inl e => inl e
                | inr username => call_includes username
                end
            end
      end
  end.

End Validate.

(** [config.a?.b?.c] *)
Definition at_path (config : json) (path : list string) : value :=
  fold_left optional path (Some config).

(** The configuration of the typed model as a parsed value. *)
Definition fields {A : Type} (name : string) (o : option A)
           (to_json : A -> json) : list (string * json) :=
  match o with
  | Some a => [(name, to_json a)]
  | None => []
  end.

Definition of_number (n : number) : json :=
  match n with
  | Int z => JNumber (Num.of_Z z)
  | NaN => JNumber Num.NotANumber
  end.

Definition of_credentials (c : LoginCredentials) : json :=
  JObject (fields "username" (username c) JString
           ++ fields "password" (password c) JString)%list.

Definition of_timeouts (t : Timeouts) : json :=
  JObject (fields "navigation" (navigation t) of_number
           ++ fields "element" (element t) of_number
           ++ fields "test" (test t) of_number)%list.

Definition of_excel (e : ExcelConfig) : json :=
  JObject (fields "baseUrl" (baseUrl e) JString
           ++ fields "credentials" (credentials e) of_credentials
           ++ fields "timeouts" (timeouts e) of_timeouts)%list.

Definition of_viewport (v : Viewport) : json :=
  JObject (fields "width" (width v) of_number
           ++ fields "height" (height v) of_number)%list.

Definition of_browser (b : BrowserConfig) : json :=
  JObject (fields "headless" (headless b) JBool
           ++ fields "viewport" (viewport b) of_viewport
           ++ fields "slowMo" (slowMo b) of_number)%list.

Definition of_configuration (c : TestConfiguration) : json :=
  JObject (fields "excel" (excel c) of_excel
           ++ fields "browser" (browser c) of_browser)%list.

End ConfigJson.
(** * Properties *)

(** ** Strings *)

Lemma string_length_app (s t : string) : length (s ++ t) = (length s + length t)%nat.
Proof. induction s as [|c s IH]; simpl; [reflexivity | now rewrite IH]. Qed.

Lemma string_app_empty_r (s : string) : s ++ "" = s.
Proof. induction s as [|c s IH]; simpl; [reflexivity | now rewrite IH]. Qed.

Lemma string_length_zero (s : string) : length s = 0%nat -> s = "".
Proof. destruct s; [reflexivity | discriminate]. Qed.

Lemma all_chars_app cls (s t : string) :
  all_chars cls (s ++ t) = all_chars cls s && all_chars cls t.
Proof.
  induction s as [|c s IH]; simpl; [reflexivity|].
  now rewrite IH, andb_assoc.
Qed.

Lemma all_chars_ext (f g : ascii -> bool) (s : string) :
  (forall c, f c = g c) -> all_chars f s = all_chars g s.
Proof.
  intros E. induction s as [|c s IH]; simpl; [reflexivity|].
  now rewrite E, IH.
Qed.

(** ** Character classes *)

(** The ranges of [[A-Za-z]] hold exactly the 52 ASCII letters. *)
Lemma letter_class (c : ascii) : occurs c ascii_letters = is_letter c.
Proof. destruct c as [[] [] [] [] [] [] [] []]; reflexivity. Qed.

(** [\d] holds exactly the ten decimal digits. *)
Lemma digit_class (c : ascii) : occurs c decimal_digit_chars = is_digit c.
Proof. destruct c as [[] [] [] [] [] [] [] []]; reflexivity. Qed.

Lemma letter_not_digit (c : ascii) : is_letter c = true -> is_digit c = false.
Proof. destruct c as [[] [] [] [] [] [] [] []]; vm_compute; congruence. Qed.

Lemma digit_not_space (c : ascii) :
  is_digit c = true -> is_white_space c = false.
Proof. destruct c as [[] [] [] [] [] [] [] []]; vm_compute; congruence. Qed.

Lemma digit_value_range (c : ascii) :
  is_digit c = true -> (0 <= digit_value c <= 9)%Z.
Proof.
  unfold is_digit, digit_value. cbv zeta.
  rewrite andb_true_iff, !Nat.leb_le. lia.
Qed.

Lemma digit_char_value (c : ascii) :
  is_digit c = true -> digit_char (digit_value c) = c.
Proof.
  unfold is_digit, digit_value, digit_char. cbv zeta.
  rewrite andb_true_iff, !Nat.leb_le. intros [Hlo Hhi].
  replace (48 + Z.to_nat (Z.of_nat (nat_of_ascii c) - 48))%nat
    with (nat_of_ascii c) by lia.
  apply ascii_nat_embedding.
Qed.

Lemma small_cases (d : Z) :
  (0 <= d <= 9)%Z ->
  (d = 0 \/ d = 1 \/ d = 2 \/ d = 3 \/ d = 4 \/
   d = 5 \/ d = 6 \/ d = 7 \/ d = 8 \/ d = 9)%Z.
Proof. lia. Qed.

Lemma digit_char_digit (d : Z) :
  (0 <= d <= 9)%Z -> is_digit (digit_char d) = true.
Proof.
  intros H. destruct (small_cases d H) as
    [-> | [-> | [-> | [-> | [-> | [-> | [-> | [-> | [-> | ->]]]]]]]]];
    reflexivity.
Qed.

Lemma digit_value_char (d : Z) :
  (0 <= d <= 9)%Z -> digit_value (digit_char d) = d.
Proof.
  intros H. destruct (small_cases d H) as
    [-> | [-> | [-> | [-> | [-> | [-> | [-> | [-> | [-> | ->]]]]]]]]];
    reflexivity.
Qed.

(** ** The regular expression *)

Module RegexFacts.
Import Regex.

Lemma in_map_cons c (m r : string) (l : list (string * string)) :
  In (m, r) (map (fun mr => (String c (fst mr), snd mr)) l) ->
  exists m', m = String c m' /\ In (m', r) l.
Proof.
  rewrite in_map_iff. intros [[m' r'] [E Hin]]. simpl in E.
  injection E as <- <-. now exists m'.
Qed.

(** Every alternative of a repetition splits the input, consists of
    characters of the class and respects the bounds. *)
Lemma rep_sound cls (hi : nat) : forall lo s m r,
  In (m, r) (rep cls lo hi s) ->
  s = m ++ r /\ all_chars cls m = true /\ (lo <= length m <= hi)%nat.
Proof.
  induction hi as [|hi IH]; intros lo s m r Hin; simpl in Hin.
  - destruct (Nat.eqb_spec lo 0) as [-> | _]; [|contradiction].
    destruct Hin as [E | []]. injection E as <- <-. simpl. auto.
  - apply in_app_or in Hin. destruct Hin as [Hin | Hin].
    + destruct s as [|c s]; [contradiction|].
      destruct (cls c) eqn:Hc; [|contradiction].
      apply in_map_cons in Hin. destruct Hin as [m' [-> Hin]].
      apply IH in Hin. destruct Hin as [-> [Hm Hlen]].
      simpl. rewrite Hc, Hm. repeat split; lia.
    + destruct (Nat.eqb_spec lo 0) as [-> | _]; [|contradiction].
      destruct Hin as [E | []]. injection E as <- <-. simpl.
      repeat split; lia.
Qed.

(** Every such split is among the alternatives. *)
Lemma rep_complete cls (hi : nat) : forall lo m r,
  all_chars cls m = true -> (lo <= length m <= hi)%nat ->
  In (m, r) (rep cls lo hi (m ++ r)).
Proof.
  induction hi as [|hi IH]; intros lo m r Hm Hlen; simpl.
  - assert (length m = 0%nat) as Hz by lia. apply string_length_zero in Hz.
    subst m. simpl in Hlen.
    replace lo with 0%nat by lia. simpl. auto.
  - apply in_or_app. destruct m as [|c m]; simpl in *.
    + right. replace lo with 0%nat by lia. simpl. auto.
    + left. apply andb_true_iff in Hm. destruct Hm as [Hc Hm].
      rewrite Hc. apply in_map_iff. exists (m, r). split; [reflexivity|].
      apply IH; [assumption | lia].
Qed.

Lemma first_success_some {A B} (k : A -> option B) (l : list A) (b : B) :
  first_success k l = Some b -> exists a, In a l /\ k a = Some b.
Proof.
  induction l as [|a l IH]; simpl; [discriminate|].
  destruct (k a) eqn:Ha.
  - intros E. injection E as <-. exists a. auto.
  - intros H. destruct (IH H) as [a' [Hin Hk]]. exists a'. auto.
Qed.

Lemma first_success_none {A B} (k : A -> option B) (l : list A) :
  first_success k l = None -> forall a, In a l -> k a = None.
Proof.
  induction l as [|a l IH]; simpl; [contradiction|].
  destruct (k a) eqn:Ha; [discriminate|].
  intros H a' [<- | Hin]; auto.
Qed.

(** When every success of the continuation gives the same answer, the order
    of the alternatives does not matter. *)
Lemma first_success_unique {A B} (k : A -> option B) (l : list A)
      (a : A) (b : B) :
  In a l -> k a = Some b ->
  (forall a' b', In a' l -> k a' = Some b' -> b' = b) ->
  first_success k l = Some b.
Proof.
  intros Hin Hk Huniq.
  destruct (first_success k l) as [b'|] eqn:E.
  - apply first_success_some in E. destruct E as [a' [Hin' Hk']].
    f_equal. eauto.
  - rewrite (first_success_none _ _ E a Hin) in Hk. discriminate.
Qed.

(** A string splits in one way only into letters followed by digits. *)
Lemma split_unique (p : string) : forall p' d d',
  all_chars is_letter p = true -> all_chars is_letter p' = true ->
  all_chars is_digit d = true -> all_chars is_digit d' = true ->
  p ++ d = p' ++ d' -> p = p' /\ d = d'.
Proof.
  induction p as [|c p IH]; intros p' d d' Hp Hp' Hd Hd' E.
  - destruct p' as [|c' p']; simpl in *; [auto|].
    subst d. simpl in Hd.
    apply andb_true_iff in Hp', Hd. destruct Hp' as [Hl _], Hd as [Hg _].
    rewrite (letter_not_digit _ Hl) in Hg. discriminate.
  - destruct p' as [|c' p']; simpl in *.
    + subst d'. simpl in Hd'.
      apply andb_true_iff in Hp, Hd'. destruct Hp as [Hl _], Hd' as [Hg _].
      rewrite (letter_not_digit _ Hl) in Hg. discriminate.
    + injection E as <- E.
      apply andb_true_iff in Hp, Hp'.
      destruct Hp as [_ Hp], Hp' as [_ Hp'].
      destruct (IH p' d d' Hp Hp' Hd Hd' E) as [-> ->]. auto.
Qed.

#[local] Arguments rep : simpl never.

(** What [token] says, in terms of the classes of the pattern. *)
Lemma token_parts (p d : string) :
  token p d = true <->
  (1 <= length p <= 4)%nat /\ all_chars is_letter p = true /\
  (1 <= length d <= 4)%nat /\ all_chars is_digit d = true.
Proof.
  unfold token.
  rewrite (all_chars_ext _ _ p letter_class).
  rewrite (all_chars_ext _ _ d digit_class).
  rewrite !andb_true_iff, !Nat.leb_le. tauto.
Qed.

(** The pattern accepts every token and captures its two parts. *)
Lemma exec_token (p d : string) :
  token p d = true -> exec (p ++ d) = Some [p ++ d; p; d].
Proof.
  rewrite token_parts. intros (Hlp & Hp & Hld & Hd).
  unfold exec.
  apply first_success_unique with (a := (p, d)).
  - now apply rep_complete.
  - simpl. apply first_success_unique with (a := (d, "")).
    + pose proof (rep_complete is_digit 4 1 d "" Hd Hld) as Hin.
      now rewrite string_app_empty_r in Hin.
    + reflexivity.
    + intros [g2 r2] b' Hin. simpl.
      destruct (String.eqb_spec r2 "") as [-> | _]; [|discriminate].
      apply rep_sound in Hin. destruct Hin as [E _].
      rewrite string_app_empty_r in E. subst g2. now intros [= <-].
  - intros [g1 r1] b' Hin1 Hk. simpl in Hk.
    apply first_success_some in Hk. destruct Hk as [[g2 r2] [Hin2 Hk]].
    simpl in Hk.
    destruct (String.eqb_spec r2 "") as [-> | _]; [|discriminate].
    injection Hk as <-.
    apply rep_sound in Hin1, Hin2.
    destruct Hin1 as (E1 & Hg1 & _), Hin2 as (E2 & Hg2 & _).
    rewrite string_app_empty_r in E2. subst r1.
    destruct (split_unique p g1 d g2 Hp Hg1 Hd Hg2 E1) as [<- <-].
    reflexivity.
Qed.

(** Whatever the pattern accepts is a token, and the match array holds the
    input and its two parts. *)
Lemma exec_some (s : string) (m : list string) :
  exec s = Some m ->
  exists p d, token p d = true /\ s = p ++ d /\ m = [s; p; d].
Proof.
  unfold exec. intros H.
  apply first_success_some in H. destruct H as [[g1 r1] [Hin1 H]].
  apply first_success_some in H. destruct H as [[g2 r2] [Hin2 H]].
  simpl in H, Hin2.
  destruct (String.eqb_spec r2 "") as [-> | _]; [|discriminate].
  injection H as <-.
  apply rep_sound in Hin1, Hin2.
  destruct Hin1 as (E1 & Hg1 & Hl1), Hin2 as (E2 & Hg2 & Hl2).
  rewrite string_app_empty_r in E2. subst r1 s.
  exists g1, g2. rewrite token_parts. auto.
Qed.

Lemma exec_none (s : string) :
  exec s = None <-> (forall p d, token p d = true -> s <> p ++ d).
Proof.
  split.
  - intros H p d Ht ->. rewrite (exec_token p d Ht) in H. discriminate.
  - intros H. destruct (exec s) as [m|] eqn:E; [|reflexivity].
    apply exec_some in E. destruct E as (p & d & Ht & E & _).
    now destruct (H p d Ht).
Qed.

End RegexFacts.

(** ** Decimal numbers *)

Section Decimal.

Open Scope Z_scope.

#[local] Arguments digit_char : simpl never.
#[local] Arguments digit_value : simpl never.
#[local] Arguments is_digit : simpl never.

Lemma pow10_succ (k : nat) : 10 ^ Z.of_nat (S k) = 10 * 10 ^ Z.of_nat k.
Proof. rewrite Nat2Z.inj_succ, Z.pow_succ_r; lia. Qed.

Lemma pow10_pos (k : nat) : 0 < 10 ^ Z.of_nat k.
Proof. apply Z.pow_pos_nonneg; lia. Qed.

Lemma pow10_mono (j k : nat) :
  (j <= k)%nat -> 10 ^ Z.of_nat j <= 10 ^ Z.of_nat k.
Proof. intros H. apply Z.pow_le_mono_r; lia. Qed.

Lemma decimal_value_from_shift (s : string) : forall acc,
  decimal_value_from acc s
  = acc * 10 ^ Z.of_nat (length s) + decimal_value s.
Proof.
  unfold decimal_value.
  induction s as [|c s IH]; intros acc.
  - simpl. lia.
  - cbn [decimal_value_from length].
    rewrite IH, (IH (10 * 0 + digit_value c)), pow10_succ. ring.
Qed.

Lemma decimal_value_cons (c : ascii) (s : string) :
  decimal_value (String c s)
  = digit_value c * 10 ^ Z.of_nat (length s) + decimal_value s.
Proof.
  unfold decimal_value at 1. cbn [decimal_value_from].
  rewrite decimal_value_from_shift. ring.
Qed.

Lemma decimal_value_snoc (s : string) (c : ascii) :
  decimal_value (s ++ String c "") = 10 * decimal_value s + digit_value c.
Proof.
  unfold decimal_value. generalize 0.
  induction s as [|c' s IH]; intros acc; simpl; [reflexivity|].
  apply IH.
Qed.

(** A string of [k] digits denotes a number below [10^k]. *)
Lemma decimal_value_bound (s : string) :
  all_chars is_digit s = true ->
  0 <= decimal_value s < 10 ^ Z.of_nat (length s).
Proof.
  induction s as [|c s IH]; intros H.
  - unfold decimal_value. simpl. lia.
  - simpl in H. apply andb_true_iff in H. destruct H as [Hc Hs].
    rewrite decimal_value_cons.
    cbn [length]. rewrite pow10_succ.
    pose proof (digit_value_range c Hc). specialize (IH Hs). nia.
Qed.

Lemma decimal_digits_succ (fuel : nat) (n : Z) :
  decimal_digits (S fuel) n
  = if n <? 10 then String (digit_char n) ""
    else (decimal_digits fuel (n / 10)
          ++ String (digit_char (n mod 10)) "")%string.
Proof. reflexivity. Qed.

Lemma pow2_succ (k : nat) : 2 ^ Z.of_nat (S k) = 2 * 2 ^ Z.of_nat k.
Proof. rewrite Nat2Z.inj_succ, Z.pow_succ_r; lia. Qed.

(** Any bound that covers the number gives the same digits. *)
Lemma decimal_digits_fuel (f1 : nat) : forall f2 n,
  0 <= n < 2 ^ Z.of_nat (S f1) -> n < 2 ^ Z.of_nat (S f2) ->
  decimal_digits (S f1) n = decimal_digits (S f2) n.
Proof.
  induction f1 as [|f1 IH]; intros f2 n H1 H2;
    rewrite !decimal_digits_succ;
    destruct (Z.ltb_spec n 10) as [Hlt | Hge]; try reflexivity.
  - rewrite pow2_succ in H1. simpl in H1. lia.
  - destruct f2 as [|f2].
    + rewrite pow2_succ in H2. simpl in H2. lia.
    + f_equal. rewrite pow2_succ in H1, H2.
      apply IH;
        [split; [apply Z.div_pos; lia | apply Z.div_lt_upper_bound; lia]
        | apply Z.div_lt_upper_bound; lia].
Qed.

Lemma decimal_digits_repr (fuel : nat) (n : Z) :
  0 <= n < 2 ^ Z.of_nat (S fuel) ->
  decimal_digits (S fuel) n = decimal_repr n.
Proof.
  intros H. unfold decimal_repr. apply decimal_digits_fuel; [assumption|].
  rewrite Nat2Z.inj_succ, Z2Nat.id by apply Z.log2_nonneg.
  destruct (Z.eq_dec n 0) as [-> | Hn]; [reflexivity|].
  apply Z.log2_spec. lia.
Qed.

(** The recursion the digits obey. *)
Lemma decimal_repr_eq (n : Z) :
  0 <= n ->
  decimal_repr n
  = if n <? 10 then String (digit_char n) ""
    else (decimal_repr (n / 10) ++ String (digit_char (n mod 10)) "")%string.
Proof.
  intros Hn. unfold decimal_repr at 1. rewrite decimal_digits_succ.
  destruct (Z.ltb_spec n 10) as [Hlt | Hge]; [reflexivity|].
  f_equal.
  assert (3 <= Z.log2 n) as Hlog
      by (change 3 with (Z.log2 8); apply Z.log2_le_mono; lia).
  destruct (Z.to_nat (Z.log2 n)) as [|k] eqn:Ek; [lia|].
  apply decimal_digits_repr.
  rewrite <- Ek, Z2Nat.id by lia.
  pose proof (Z.log2_spec n ltac:(lia)) as [_ Hup].
  rewrite Z.pow_succ_r in Hup by lia.
  split; [apply Z.div_pos; lia | apply Z.div_lt_upper_bound; lia].
Qed.

Lemma div10_range (n : Z) : 10 <= n -> 0 <= n / 10 < n.
Proof.
  intros H. split; [apply Z.div_pos; lia | apply Z.div_lt; lia].
Qed.

Lemma mod10_range (n : Z) : 0 <= n mod 10 <= 9.
Proof. pose proof (Z.mod_pos_bound n 10). lia. Qed.

(** The representation consists of digits... *)
Lemma decimal_repr_digits (n : Z) :
  0 <= n -> all_chars is_digit (decimal_repr n) = true.
Proof.
  intros Hn. pattern n. apply Zlt_0_ind; [|assumption].
  clear n Hn. intros n IH Hn. rewrite decimal_repr_eq by assumption.
  destruct (Z.ltb_spec n 10) as [Hlt | Hge].
  - cbn [all_chars]. rewrite digit_char_digit by lia. reflexivity.
  - rewrite all_chars_app, IH by (apply div10_range; assumption).
    cbn [all_chars]. rewrite digit_char_digit by apply mod10_range.
    reflexivity.
Qed.

(** ... denotes the number ... *)
Lemma decimal_repr_value (n : Z) :
  0 <= n -> decimal_value (decimal_repr n) = n.
Proof.
  intros Hn. pattern n. apply Zlt_0_ind; [|assumption].
  clear n Hn. intros n IH Hn. rewrite decimal_repr_eq by assumption.
  destruct (Z.ltb_spec n 10) as [Hlt | Hge].
  - unfold decimal_value. cbn [decimal_value_from].
    rewrite digit_value_char; lia.
  - rewrite decimal_value_snoc, IH by (apply div10_range; assumption).
    rewrite digit_value_char by apply mod10_range.
    pose proof (Z.div_mod n 10). lia.
Qed.

Lemma decimal_repr_nonempty (n : Z) :
  0 <= n -> (1 <= length (decimal_repr n))%nat.
Proof.
  intros Hn. rewrite decimal_repr_eq by assumption.
  destruct (n <? 10); [simpl; lia|].
  rewrite string_length_app. simpl. lia.
Qed.

(** ... and has at most [k] digits exactly when the number is below
    [10^k]: it has no leading zero. *)
Lemma decimal_repr_length (n : Z) :
  0 <= n ->
  forall k : nat, (1 <= k)%nat ->
    (length (decimal_repr n) <= k)%nat <-> n < 10 ^ Z.of_nat k.
Proof.
  intros Hn. pattern n. apply Zlt_0_ind; [|assumption].
  clear n Hn. intros n IH Hn k Hk. rewrite decimal_repr_eq by assumption.
  destruct k as [|k]; [lia|]. rewrite pow10_succ.
  pose proof (pow10_pos k) as Hpos.
  destruct (Z.ltb_spec n 10) as [Hlt | Hge].
  - cbn [length]. split; intros _; lia.
  - rewrite string_length_app. cbn [length].
    pose proof (div10_range n Hge) as Hdiv.
    pose proof (decimal_repr_nonempty (n / 10) ltac:(lia)) as Hne.
    destruct k as [|k].
    + change (10 ^ Z.of_nat 0) with 1. split; intros; lia.
    + specialize (IH (n / 10) Hdiv (S k) ltac:(lia)).
      pose proof (Z.div_mod n 10 ltac:(lia)) as Hdm.
      pose proof (mod10_range n) as Hm.
      split; intros H.
      * assert (n / 10 < 10 ^ Z.of_nat (S k)) by (apply IH; lia). lia.
      * assert (n / 10 < 10 ^ Z.of_nat (S k)) as H' by lia.
        apply IH in H'. lia.
Qed.

End Decimal.

(** ** [parseInt], [toString], [repeat] and [padStart] on the values that
    occur *)

Lemma digit_prefix_all (s : string) :
  all_chars is_digit s = true -> digit_prefix s = s.
Proof.
  induction s as [|c s IH]; cbn [all_chars digit_prefix]; [reflexivity|].
  intros H. apply andb_true_iff in H. destruct H as [Hc Hs].
  now rewrite Hc, IH.
Qed.

Lemma strip_sign_digit (c : ascii) (s : string) :
  is_digit c = true -> strip_sign (String c s) = (false, String c s).
Proof.
  intros Hc.
  destruct c as [[] [] [] [] [] [] [] []]; try discriminate Hc; reflexivity.
Qed.

(** On a non-empty digit string [parseInt] gives its decimal value: a
    leading zero changes nothing. *)
Lemma parseInt10_digits (s : string) :
  all_chars is_digit s = true -> s <> "" ->
  parseInt10 s = Int (decimal_value s).
Proof.
  intros Hs Hne. destruct s as [|c s]; [congruence|].
  pose proof Hs as Hall. cbn [all_chars] in Hs.
  apply andb_true_iff in Hs. destruct Hs as [Hc _].
  unfold parseInt10. cbn [skip_white_space].
  rewrite (digit_not_space c Hc), (strip_sign_digit c s Hc).
  rewrite (digit_prefix_all _ Hall). reflexivity.
Qed.

Lemma toString_nonneg (z : Z) :
  (0 <= z)%Z -> Number_toString (Int z) = decimal_repr z.
Proof.
  intros H. unfold Number_toString.
  destruct (Z.ltb_spec z 0); [lia | reflexivity].
Qed.

Lemma repeat_zero_length (n : nat) : length (String_repeat "0" n) = n.
Proof. induction n as [|n IH]; simpl; [reflexivity | now rewrite IH]. Qed.

Lemma repeat_zero_digits (n : nat) :
  all_chars is_digit (String_repeat "0" n) = true.
Proof. induction n as [|n IH]; simpl; [reflexivity | exact IH]. Qed.

Lemma substring_whole (s : string) : substring 0 (length s) s = s.
Proof. induction s as [|c s IH]; simpl; [reflexivity | now rewrite IH]. Qed.

(** Padding with ["0"] puts the missing zeros in front. *)
Lemma padStart_zero (s : string) (n : nat) :
  padStart s n "0" = String_repeat "0" (n - length s) ++ s.
Proof.
  unfold padStart. destruct (Nat.leb_spec n (length s)) as [Hle | Hgt].
  - replace (n - length s)%nat with 0%nat by lia. reflexivity.
  - cbn [String.eqb]. f_equal.
    rewrite <- (repeat_zero_length (n - length s)) at 1.
    apply substring_whole.
Qed.

Lemma padStart_zero_length (s : string) (n : nat) :
  (length s <= n)%nat -> length (padStart s n "0") = n.
Proof.
  intros H. rewrite padStart_zero, string_length_app, repeat_zero_length.
  lia.
Qed.

Lemma padStart_zero_digits (s : string) (n : nat) :
  all_chars is_digit s = true ->
  all_chars is_digit (padStart s n "0") = true.
Proof.
  intros H. now rewrite padStart_zero, all_chars_app, repeat_zero_digits, H.
Qed.

(** ** The suffix and its successor *)

Section Suffix.

Variables p d : string.
Hypothesis Htoken : token p d = true.

Lemma suffix_digits : all_chars is_digit d = true.
Proof. apply RegexFacts.token_parts in Htoken. tauto. Qed.

Lemma suffix_length : (1 <= length d <= 4)%nat.
Proof. apply RegexFacts.token_parts in Htoken. tauto. Qed.

Lemma prefix_letters : all_chars is_letter p = true.
Proof. apply RegexFacts.token_parts in Htoken. tauto. Qed.

Lemma prefix_length : (1 <= length p <= 4)%nat.
Proof. apply RegexFacts.token_parts in Htoken. tauto. Qed.

Lemma suffix_value : (0 <= decimal_value d < 10 ^ Z.of_nat (length d))%Z.
Proof. apply decimal_value_bound, suffix_digits. Qed.

Lemma incremented_digits : all_chars is_digit (incremented d) = true.
Proof.
  apply decimal_repr_digits. pose proof suffix_value. lia.
Qed.

Lemma incremented_nonempty : (1 <= length (incremented d))%nat.
Proof.
  apply decimal_repr_nonempty. pose proof suffix_value. lia.
Qed.

(** Adding one lengthens the suffix by one digit at most. *)
Lemma incremented_length : (length (incremented d) <= S (length d))%nat.
Proof.
  pose proof suffix_value as Hv.
  apply decimal_repr_length; [lia | lia |].
  rewrite pow10_succ. lia.
Qed.

(** The incremented value needs more than 4 digits exactly when the value
    is 9999. *)
Lemma overflows_value : overflows d <-> decimal_value d = 9999%Z.
Proof.
  unfold overflows, incremented.
  pose proof suffix_value as Hv. pose proof suffix_length as Hl.
  pose proof (pow10_mono (length d) 4 ltac:(lia)) as Hm.
  change (10 ^ Z.of_nat 4)%Z with 10000%Z in Hm.
  pose proof (decimal_repr_length (decimal_value d + 1) ltac:(lia)
                4%nat ltac:(lia)) as Hk.
  change (10 ^ Z.of_nat 4)%Z with 10000%Z in Hk.
  split; intros H.
  - assert (~ (decimal_value d + 1 < 10000)%Z) by (rewrite <- Hk; lia). lia.
  - assert (~ (length (decimal_repr (decimal_value d + 1)) <= 4)%nat)
      by (rewrite Hk; lia).
    lia.
Qed.

(** What the body computes on a token: the prefix followed by the new digit
    part, from any state and without touching it. *)
Lemma run_token {World : Type} (w : World) :
  stringIncrement (Str (p ++ d)) w
  = (Return
       (p ++ (if (4 <? length (incremented d))%nat then
                String_repeat "0" (length d)
              else if (length d <? length (incremented d))%nat then
                incremented d
              else padStart (incremented d) (length d) "0")),
     w).
Proof.
  pose proof suffix_value as Hv. pose proof suffix_length as Hl.
  pose proof prefix_length as Hp.
  unfold stringIncrement.
  assert (ToBoolean (Str (p ++ d)) = true) as ->.
  { destruct p; simpl in *; [lia | reflexivity]. }
  cbn [typeof negb orb]. change ("string" =? "string") with true.
  cbn [negb String_match].
  unfold bind at 1. unfold ret at 1.
  rewrite (RegexFacts.exec_token p d Htoken).
  cbn [List.length Nat.ltb Nat.leb].
  unfold bind, at_index, ret. cbn [nth_error].
  rewrite (parseInt10_digits d suffix_digits)
    by (intros ->; simpl in Hl; lia).
  cbn [num_add]. rewrite toString_nonneg by lia.
  reflexivity.
Qed.

End Suffix.

(** ** Shape of the result on a token *)

Lemma digit_not_letter (c : ascii) : is_digit c = true -> is_letter c = false.
Proof.
  intros H. destruct (is_letter c) eqn:E; [|reflexivity].
  rewrite (letter_not_digit c E) in H. discriminate.
Qed.

Lemma letter_prefix_digits (s : string) :
  all_chars is_digit s = true -> letter_prefix s = "".
Proof.
  destruct s as [|c s]; cbn [all_chars letter_prefix]; [reflexivity|].
  intros H. apply andb_true_iff in H. destruct H as [Hc _].
  now rewrite letter_class, (digit_not_letter c Hc).
Qed.

Lemma letter_prefix_app (s t : string) :
  all_chars is_letter s = true -> all_chars is_digit t = true ->
  letter_prefix (s ++ t) = s.
Proof.
  intros Hs Ht. induction s as [|c s IH].
  - now apply letter_prefix_digits.
  - cbn [all_chars] in Hs. apply andb_true_iff in Hs. destruct Hs as [Hc Hs].
    cbn [append letter_prefix]. now rewrite letter_class, Hc, IH.
Qed.

Lemma last_char_app (s t : string) :
  t <> "" -> last_char (s ++ t) = last_char t.
Proof.
  intros Ht. induction s as [|c s IH]; [reflexivity|].
  cbn [append last_char]. rewrite IH.
  destruct (s ++ t) eqn:E; [|reflexivity].
  destruct s; [simpl in E; congruence | discriminate].
Qed.

Lemma last_char_digit (s : string) :
  all_chars is_digit s = true -> s <> "" ->
  exists c, last_char s = Some c /\ is_digit c = true.
Proof.
  induction s as [|c s IH]; intros H Hne; [congruence|].
  cbn [all_chars] in H. apply andb_true_iff in H. destruct H as [Hc Hs].
  destruct s as [|c' s].
  - exists c. auto.
  - apply IH; [assumption | discriminate].
Qed.

Lemma all_zero_repeat (n : nat) :
  all_chars (Ascii.eqb "0") (String_repeat "0" n) = true.
Proof. induction n as [|n IH]; simpl; [reflexivity | exact IH]. Qed.

Section Result.

Variables p d : string.
Hypothesis Htoken : token p d = true.

(** The result keeps the prefix; its digit part is a digit string as long
    as the suffix or one longer, of 4 digits at most. *)
Lemma run_token_shape {World : Type} (w : World) :
  exists d',
    stringIncrement (Str (p ++ d)) w = (Return (p ++ d'), w)
    /\ all_chars is_digit d' = true
    /\ (length d <= length d' <= S (length d))%nat
    /\ (length d' <= 4)%nat.
Proof.
  pose proof (suffix_length p d Htoken) as Hl.
  pose proof (incremented_length p d Htoken) as Hi.
  rewrite (run_token p d Htoken).
  eexists; split; [reflexivity|].
  destruct (Nat.ltb_spec 4 (length (incremented d))) as [Hover | Hfit].
  - rewrite repeat_zero_digits, repeat_zero_length. repeat split; lia.
  - destruct (Nat.ltb_spec (length d) (length (incremented d)))
      as [Hgrow | Hsame].
    + rewrite (incremented_digits p d Htoken). repeat split; lia.
    + rewrite padStart_zero_digits, padStart_zero_length
        by (assumption || apply (incremented_digits p d Htoken)).
      repeat split; lia.
Qed.

(** The result is a token again. *)
Lemma run_token_closed {World : Type} (w : World) :
  exists d',
    stringIncrement (Str (p ++ d)) w = (Return (p ++ d'), w)
    /\ token p d' = true.
Proof.
  destruct (run_token_shape w) as (d' & Hrun & Hd' & Hlen & Hmax).
  exists d'. split; [assumption|].
  pose proof (suffix_length p d Htoken).
  apply RegexFacts.token_parts. repeat split;
    try apply (prefix_length p d Htoken);
    try apply (prefix_letters p d Htoken); try assumption; lia.
Qed.

End Result.

(** A token is never the sentinel: it ends in a digit. *)
Lemma token_ends_in_digit (p d : string) :
  token p d = true ->
  exists c, last_char (p ++ d) = Some c /\ is_digit c = true.
Proof.
  intros H. apply RegexFacts.token_parts in H.
  destruct H as (_ & _ & Hl & Hd).
  assert (d <> "") as Hne by (intros ->; simpl in Hl; lia).
  rewrite last_char_app by assumption. now apply last_char_digit.
Qed.

Lemma token_not_sentinel (p d : string) :
  token p d = true -> p ++ d <> "Error".
Proof.
  intros H E. destruct (token_ends_in_digit p d H) as (c & Hc & Hdig).
  rewrite E in Hc. simpl in Hc. injection Hc as <-. discriminate Hdig.
Qed.

(** ** Inputs the pattern rejects *)

Lemma valid_input_exec (s : string) :
  valid_input (Str s) <-> Regex.exec s <> None.
Proof.
  split.
  - intros (p & d & E & Ht). injection E as ->.
    rewrite (RegexFacts.exec_token p d Ht). discriminate.
  - intros H. destruct (Regex.exec s) as [m|] eqn:E; [|congruence].
    apply RegexFacts.exec_some in E. destruct E as (p & d & Ht & -> & _).
    now exists p, d.
Qed.

Lemma invalid_by_exec (s : string) :
  Regex.exec s = None -> ~ valid_input (Str s).
Proof. intros H Hv. now apply valid_input_exec in Hv. Qed.

(** Where the pattern fails the function returns the sentinel. *)
Lemma run_no_match {World : Type} (w : World) (s : string) :
  Regex.exec s = None -> stringIncrement (Str s) w = (Return "Error", w).
Proof.
  intros H. unfold stringIncrement.
  destruct s as [|c s]; [reflexivity|].
  cbn [ToBoolean typeof negb orb String.eqb negb].
  change ("string" =? "string") with true.
  cbn [negb String_match]. unfold bind at 1. unfold ret at 1.
  now rewrite H.
Qed.

(** Every input that is not valid gives the sentinel, by way of a normal
    return and with the state as it was. *)
Lemma run_invalid {World : Type} (w : World) (x : value) :
  ~ valid_input x -> stringIncrement x w = (Return "Error", w).
Proof.
  intros H. destruct x as [| |b|f|s|r]; try reflexivity.
  - now destruct b.
  - now destruct f.
  - apply run_no_match.
    destruct (Regex.exec s) eqn:E; [|reflexivity].
    exfalso. apply H, valid_input_exec. congruence.
Qed.

(** The function is total: it returns a string, and the string is the
    sentinel exactly on the inputs that are not valid. *)
Lemma run_total {World : Type} (w : World) (x : value) :
  exists out,
    stringIncrement x w = (Return out, w)
    /\ (out = "Error" <-> ~ valid_input x).
Proof.
  destruct x as [| |b|f|s|r];
    try (exists "Error"; split;
         [try reflexivity; now (destruct b || destruct f)
         | split; [intros _ (p' & d' & E & _); discriminate E | reflexivity]]).
  destruct (Regex.exec s) as [m|] eqn:E.
  - apply RegexFacts.exec_some in E. destruct E as (p & d & Ht & -> & _).
    destruct (run_token_closed p d Ht w) as (d' & Hrun & Ht').
    exists (p ++ d'). split; [assumption|]. split.
    + intros Hs. now destruct (token_not_sentinel p d' Ht').
    + intros Hn. exfalso. apply Hn. now exists p, d.
  - exists "Error". split; [now apply run_no_match|].
    split; [intros _; now apply invalid_by_exec | reflexivity].
Qed.

(** A suffix of at most four digits has the value 9999 only if it is
    ["9999"]. *)
Lemma value_9999 (d : string) :
  all_chars is_digit d = true -> (length d <= 4)%nat ->
  decimal_value d = 9999%Z -> d = "9999".
Proof.
  intros Hd Hl Hv.
  pose proof (decimal_value_bound d Hd) as Hb.
  assert (length d = 4%nat) as H4.
  { destruct (Nat.eq_dec (length d) 4) as [|Hne]; [assumption|].
    pose proof (pow10_mono (length d) 3 ltac:(lia)) as Hm.
    change (10 ^ Z.of_nat 3)%Z with 1000%Z in Hm. lia. }
  destruct d as [|a [|b [|c [|e [|f d]]]]]; try discriminate H4.
  cbn [all_chars] in Hd. rewrite !andb_true_iff in Hd.
  destruct Hd as (Ha & Hb' & Hc & He & _).
  rewrite !decimal_value_cons in Hv. cbn [length] in Hv.
  change (10 ^ Z.of_nat 3)%Z with 1000%Z in Hv.
  change (10 ^ Z.of_nat 2)%Z with 100%Z in Hv.
  change (10 ^ Z.of_nat 1)%Z with 10%Z in Hv.
  change (10 ^ Z.of_nat 0)%Z with 1%Z in Hv.
  change (decimal_value "") with 0%Z in Hv.
  pose proof (digit_value_range a Ha). pose proof (digit_value_range b Hb').
  pose proof (digit_value_range c Hc). pose proof (digit_value_range e He).
  assert (digit_value a = 9 /\ digit_value b = 9
          /\ digit_value c = 9 /\ digit_value e = 9)%Z
    as (Va & Vb & Vc & Ve) by lia.
  rewrite <- (digit_char_value a Ha), <- (digit_char_value b Hb'),
    <- (digit_char_value c Hc), <- (digit_char_value e He).
  rewrite Va, Vb, Vc, Ve. reflexivity.
Qed.

(** ** The number the result denotes *)

Lemma string_app_inv_head (p a b : string) : p ++ a = p ++ b -> a = b.
Proof.
  induction p as [|c p IH]; cbn [append]; [auto|].
  intros [= H]. auto.
Qed.

Lemma decimal_value_zeros (n : nat) (s : string) :
  decimal_value (String_repeat "0" n ++ s) = decimal_value s.
Proof.
  induction n as [|n IH]; [reflexivity|].
  change (String_repeat "0" (S n) ++ s)
    with (String "0" (String_repeat "0" n ++ s)).
  rewrite decimal_value_cons, IH.
  change (digit_value "0") with 0%Z. lia.
Qed.

Section Successor.

Variables p d : string.
Hypothesis Htoken : token p d = true.

(** The digit part of the result denotes the successor modulo 10000. *)
Lemma run_token_value {World : Type} (w : World) :
  exists d',
    stringIncrement (Str (p ++ d)) w = (Return (p ++ d'), w)
    /\ all_chars is_digit d' = true
    /\ (length d <= length d' <= 4)%nat
    /\ decimal_value d' = ((decimal_value d + 1) mod 10000)%Z.
Proof.
  pose proof (suffix_length p d Htoken) as Hl.
  pose proof (suffix_value p d Htoken) as Hv.
  pose proof (incremented_length p d Htoken) as Hi.
  pose proof (incremented_digits p d Htoken) as Hid.
  pose proof (overflows_value p d Htoken) as Hov. unfold overflows in Hov.
  pose proof (decimal_repr_length (decimal_value d + 1) ltac:(lia)
                4%nat ltac:(lia)) as Hk.
  change (10 ^ Z.of_nat 4)%Z with 10000%Z in Hk. fold (incremented d) in Hk.
  assert (decimal_value (incremented d) = (decimal_value d + 1)%Z) as Hiv
      by (apply decimal_repr_value; lia).
  rewrite (run_token p d Htoken).
  eexists; split; [reflexivity|].
  destruct (Nat.ltb_spec 4 (length (incremented d))) as [Hover | Hfit].
  - rewrite repeat_zero_digits, repeat_zero_length.
    repeat split; try lia.
    rewrite <- (string_app_empty_r (String_repeat "0" (length d))).
    rewrite decimal_value_zeros.
    apply Hov in Hover. rewrite Hover. reflexivity.
  - assert (decimal_value d + 1 < 10000)%Z as Hsmall by (apply Hk; lia).
    rewrite Z.mod_small by lia.
    destruct (Nat.ltb_spec (length d) (length (incremented d)))
      as [Hgrow | Hsame].
    + repeat split; try assumption; lia.
    + rewrite padStart_zero_digits, padStart_zero_length by assumption.
      repeat split; try lia.
      now rewrite padStart_zero, decimal_value_zeros.
Qed.

(** The zero-reset result is returned for the suffix "9999" and for no
    other. *)
Lemma zero_reset_only_at_9999 {World : Type} (w : World) :
  stringIncrement (Str (p ++ d)) w
  = (Return (p ++ String_repeat "0" (length d)), w)
  <-> d = "9999".
Proof.
  pose proof (suffix_length p d Htoken) as Hl.
  pose proof (suffix_value p d Htoken) as Hv.
  pose proof (pow10_mono (length d) 4 ltac:(lia)) as Hm.
  change (10 ^ Z.of_nat 4)%Z with 10000%Z in Hm.
  split.
  - intros Hrun.
    destruct (run_token_value w) as (d' & Hrun' & _ & _ & Hval).
    rewrite Hrun' in Hrun. injection Hrun as Hrun.
    apply string_app_inv_head in Hrun. subst d'.
    rewrite <- (string_app_empty_r (String_repeat "0" (length d))) in Hval.
    rewrite decimal_value_zeros in Hval.
    change (decimal_value "") with 0%Z in Hval.
    apply value_9999; [apply (suffix_digits p d Htoken) | lia |].
    destruct (Z.eq_dec (decimal_value d) 9999) as [E | N]; [exact E|].
    rewrite Z.mod_small in Hval by lia. lia.
  - intros E. subst d. rewrite (run_token p "9999" Htoken). reflexivity.
Qed.

End Successor.

(** * The claims *)

(** C1 (padding preserved).  For a valid input whose incremented value has a
    decimal representation no longer than the digit part, the call returns
    the prefix followed by that representation left-padded with zeros to
    exactly the length of the digit part; [parseInt] reads the digit part in
    base 10 whatever its leading zeros.  In particular "A009" gives "A010",
    "F001" gives "F002" and "A010" gives "A011". *)
Theorem C1_padding_preserved (World : Type) (w : World) :
  (forall p d : string,
      token p d = true ->
      (length (incremented d) <= length d)%nat ->
      stringIncrement (Str (p ++ d)) w
      = (Return (p ++ padStart (incremented d) (length d) "0"), w)
      /\ parseInt10 d = Int (decimal_value d)
      /\ padStart (incremented d) (length d) "0"
         = String_repeat "0" (length d - length (incremented d))
           ++ incremented d
      /\ length (padStart (incremented d) (length d) "0") = length d)
  /\ stringIncrement (Str "A009") w = (Return "A010", w)
  /\ stringIncrement (Str "F001") w = (Return "F002", w)
  /\ stringIncrement (Str "A010") w = (Return "A011", w)
  /\ parseInt10 "010" = Int 10.
Proof.
  split; [|repeat split].
  intros p d Ht Hlen.
  pose proof (suffix_length p d Ht) as Hl.
  rewrite (run_token p d Ht).
  destruct (Nat.ltb_spec 4 (length (incremented d))); [lia|].
  destruct (Nat.ltb_spec (length d) (length (incremented d))); [lia|].
  repeat split.
  - apply parseInt10_digits; [apply (suffix_digits p d Ht)|].
    intros ->; simpl in Hl; lia.
  - apply padStart_zero.
  - now apply padStart_zero_length.
Qed.

Lemma C1_padding_preserved_witness :
  token "A" "009" = true
  /\ (length (incremented "009") <= length "009")%nat
  /\ stringIncrement (Str ("A" ++ "009")) tt
     = (Return ("A" ++ padStart (incremented "009") (length "009") "0"), tt).
Proof.
  assert (token "A" "009" = true) as Ht by reflexivity.
  assert (length (incremented "009") <= length "009")%nat as Hlen
      by (vm_compute; lia).
  split; [exact Ht|]. split; [exact Hlen|].
  apply (proj1 (C1_padding_preserved unit tt) "A" "009" Ht Hlen).
Defined.

(** C2 (growth on carry).  For a valid input whose incremented value has a
    decimal representation longer than the digit part but of 4 digits at
    most, the call returns the prefix followed by that representation
    unpadded, which is one digit longer than the digit part.  In particular
    "A9" gives "A10", "A99" gives "A100" and "A999" gives "A1000". *)
Theorem C2_growth_on_carry (World : Type) (w : World) :
  (forall p d : string,
      token p d = true ->
      (length d < length (incremented d))%nat ->
      (length (incremented d) <= 4)%nat ->
      stringIncrement (Str (p ++ d)) w = (Return (p ++ incremented d), w)
      /\ length (incremented d) = S (length d))
  /\ stringIncrement (Str "A9") w = (Return "A10", w)
  /\ stringIncrement (Str "A99") w = (Return "A100", w)
  /\ stringIncrement (Str "A999") w = (Return "A1000", w).
Proof.
  split; [|repeat split].
  intros p d Ht Hgrow Hfit.
  pose proof (incremented_length p d Ht) as Hi.
  rewrite (run_token p d Ht).
  destruct (Nat.ltb_spec 4 (length (incremented d))); [lia|].
  destruct (Nat.ltb_spec (length d) (length (incremented d))); [|lia].
  split; [reflexivity | lia].
Qed.

Lemma C2_growth_on_carry_witness :
  token "A" "99" = true
  /\ (length "99" < length (incremented "99"))%nat
  /\ (length (incremented "99") <= 4)%nat
  /\ stringIncrement (Str ("A" ++ "99")) tt
     = (Return ("A" ++ incremented "99"), tt)
  /\ length (incremented "99") = S (length "99").
Proof.
  assert (token "A" "99" = true) as Ht by reflexivity.
  assert (length "99" < length (incremented "99"))%nat as Hgrow
      by (vm_compute; lia).
  assert (length (incremented "99") <= 4)%nat as Hfit by (vm_compute; lia).
  split; [exact Ht|]. split; [exact Hgrow|]. split; [exact Hfit|].
  apply (proj1 (C2_growth_on_carry unit tt) "A" "99" Ht Hgrow Hfit).
Defined.

(** C3 (overflow reset).  For a valid input whose incremented value needs
    more than 4 digits, the call returns the prefix followed by a string of
    zeros as long as the digit part.  In particular "A9999" gives "A0000"
    and "ZZ9999" gives "ZZ0000". *)
Theorem C3_overflow_reset (World : Type) (w : World) :
  (forall p d : string,
      token p d = true ->
      overflows d ->
      stringIncrement (Str (p ++ d)) w
      = (Return (p ++ String_repeat "0" (length d)), w)
      /\ length (String_repeat "0" (length d)) = length d
      /\ all_chars (Ascii.eqb "0") (String_repeat "0" (length d)) = true)
  /\ stringIncrement (Str "A9999") w = (Return "A0000", w)
  /\ stringIncrement (Str "ZZ9999") w = (Return "ZZ0000", w).
Proof.
  split; [|repeat split].
  intros p d Ht Hover. unfold overflows in Hover.
  rewrite (run_token p d Ht).
  destruct (Nat.ltb_spec 4 (length (incremented d))); [|lia].
  repeat split; [apply repeat_zero_length | apply all_zero_repeat].
Qed.

Lemma C3_overflow_reset_witness :
  token "ZZ" "9999" = true
  /\ overflows "9999"
  /\ stringIncrement (Str ("ZZ" ++ "9999")) tt
     = (Return ("ZZ" ++ String_repeat "0" (length "9999")), tt)
  /\ length (String_repeat "0" (length "9999")) = length "9999"
  /\ all_chars (Ascii.eqb "0") (String_repeat "0" (length "9999")) = true.
Proof.
  assert (token "ZZ" "9999" = true) as Ht by reflexivity.
  assert (overflows "9999") as Hover by (unfold overflows; vm_compute; lia).
  split; [exact Ht|]. split; [exact Hover|].
  apply (proj1 (C3_overflow_reset unit tt) "ZZ" "9999" Ht Hover).
Defined.

(** C4 (rejection).  Every input that is not a string of 1 to 4 letters
    followed by 1 to 4 digits makes the call return the sentinel "Error",
    as a normal return and not as an exception.  The empty string, "ABC",
    "123", "ABCDE1", "A12345", "A1B2", "A-1", "A 1", [null], [undefined],
    the number 123, [true] and an object all give "Error". *)
Theorem C4_invalid_gives_sentinel (World : Type) (w : World) :
  (forall x : value,
      ~ valid_input x -> stringIncrement x w = (Return "Error", w))
  /\ stringIncrement (Str "") w = (Return "Error", w)
  /\ stringIncrement (Str "ABC") w = (Return "Error", w)
  /\ stringIncrement (Str "123") w = (Return "Error", w)
  /\ stringIncrement (Str "ABCDE1") w = (Return "Error", w)
  /\ stringIncrement (Str "A12345") w = (Return "Error", w)
  /\ stringIncrement (Str "A1B2") w = (Return "Error", w)
  /\ stringIncrement (Str "A-1") w = (Return "Error", w)
  /\ stringIncrement (Str "A 1") w = (Return "Error", w)
  /\ stringIncrement Null w = (Return "Error", w)
  /\ stringIncrement Undefined w = (Return "Error", w)
  /\ stringIncrement
       (Number (S754_finite false 8655355533852672 (-46))) w
     = (Return "Error", w)
  /\ stringIncrement (Bool true) w = (Return "Error", w)
  /\ stringIncrement (Object 0) w = (Return "Error", w).
Proof.
  split; [|repeat split].
  intros x Hx. now apply run_invalid.
Qed.

Lemma C4_invalid_gives_sentinel_witness :
  ~ valid_input (Str "A 1")
  /\ stringIncrement (Str "A 1") tt = (Return "Error", tt).
Proof.
  assert (~ valid_input (Str "A 1")) as Hx
      by (apply invalid_by_exec; reflexivity).
  split; [exact Hx|].
  apply (proj1 (C4_invalid_gives_sentinel unit tt) (Str "A 1") Hx).
Defined.

(** C5 (prefix and case preserved).  For a valid input the result starts
    with the very letters of the input, in their case, followed by digits
    only: the letter prefix of the result is the letter prefix of the
    input.  In particular "fx001" gives "fx002", "FxYz123" gives "FxYz124",
    and "Zz100" gives "Zz101", not "ZZ101". *)
Theorem C5_prefix_preserved (World : Type) (w : World) :
  (forall p d : string,
      token p d = true ->
      exists d',
        stringIncrement (Str (p ++ d)) w = (Return (p ++ d'), w)
        /\ all_chars (fun c => occurs c decimal_digit_chars) d' = true
        /\ letter_prefix (p ++ d) = p
        /\ letter_prefix (p ++ d') = p)
  /\ stringIncrement (Str "fx001") w = (Return "fx002", w)
  /\ stringIncrement (Str "FxYz123") w = (Return "FxYz124", w)
  /\ stringIncrement (Str "Zz100") w = (Return "Zz101", w)
  /\ stringIncrement (Str "Zz100") w <> (Return "ZZ101", w).
Proof.
  split; [|repeat split; discriminate].
  intros p d Ht.
  destruct (run_token_shape p d Ht w) as (d' & Hrun & Hd' & _).
  exists d'. split; [assumption|].
  rewrite (all_chars_ext _ _ d' digit_class).
  pose proof (prefix_letters p d Ht). pose proof (suffix_digits p d Ht).
  repeat split; try assumption; now apply letter_prefix_app.
Qed.

Lemma C5_prefix_preserved_witness :
  token "FxYz" "123" = true
  /\ exists d',
      stringIncrement (Str ("FxYz" ++ "123")) tt
      = (Return ("FxYz" ++ d'), tt)
      /\ all_chars (fun c => occurs c decimal_digit_chars) d' = true
      /\ letter_prefix ("FxYz" ++ "123") = "FxYz"
      /\ letter_prefix ("FxYz" ++ d') = "FxYz".
Proof.
  assert (token "FxYz" "123" = true) as Ht by reflexivity.
  split; [exact Ht|].
  apply (proj1 (C5_prefix_preserved unit tt) "FxYz" "123" Ht).
Defined.

(** C6 (closure).  For a valid input the result is again a string of 1 to 4
    letters followed by 1 to 4 digits; its digit part is as long as the
    input's or one digit longer, and never longer than 4.  The smallest and
    the largest shapes are accepted: "A1" gives "A2" and "ABCD1234" gives
    "ABCD1235". *)
Theorem C6_closed_over_tokens (World : Type) (w : World) :
  (forall p d : string,
      token p d = true ->
      exists d',
        stringIncrement (Str (p ++ d)) w = (Return (p ++ d'), w)
        /\ token p d' = true
        /\ valid_input (Str (p ++ d'))
        /\ (length d <= length d' <= length d + 1)%nat
        /\ (length d' <= 4)%nat)
  /\ stringIncrement (Str "A1") w = (Return "A2", w)
  /\ stringIncrement (Str "ABCD1234") w = (Return "ABCD1235", w).
Proof.
  split; [|repeat split].
  intros p d Ht.
  destruct (run_token_shape p d Ht w) as (d' & Hrun & Hd' & Hlen & Hmax).
  pose proof (suffix_length p d Ht) as Hl.
  assert (token p d' = true) as Ht'.
  { apply RegexFacts.token_parts. repeat split;
      try apply (prefix_length p d Ht);
      try apply (prefix_letters p d Ht); try assumption; lia. }
  exists d'. repeat split; try assumption; try lia.
  now exists p, d'.
Qed.

Lemma C6_closed_over_tokens_witness :
  token "ABCD" "1234" = true
  /\ exists d',
      stringIncrement (Str ("ABCD" ++ "1234")) tt
      = (Return ("ABCD" ++ d'), tt)
      /\ token "ABCD" d' = true
      /\ valid_input (Str ("ABCD" ++ d'))
      /\ (length "1234" <= length d' <= length "1234" + 1)%nat
      /\ (length d' <= 4)%nat.
Proof.
  assert (token "ABCD" "1234" = true) as Ht by reflexivity.
  split; [exact Ht|].
  apply (proj1 (C6_closed_over_tokens unit tt) "ABCD" "1234" Ht).
Defined.

(** C7 (the sentinel is unambiguous).  On a valid input the call returns a
    string that ends in a decimal digit, so it is not "Error", whose last
    character is no digit; on every input the call returns, and the result
    equals the sentinel exactly when the input is not valid. *)
Theorem C7_sentinel_unambiguous (World : Type) (w : World) :
  (forall x : value,
      valid_input x ->
      exists out c,
        stringIncrement x w = (Return out, w)
        /\ last_char out = Some c /\ is_digit c = true
        /\ out <> "Error")
  /\ (forall c, last_char "Error" = Some c -> is_digit c = false)
  /\ (forall x : value,
        exists out,
          stringIncrement x w = (Return out, w)
          /\ (out = "Error" <-> ~ valid_input x)).
Proof.
  split; [|split].
  - intros x (p & d & -> & Ht).
    destruct (run_token_closed p d Ht w) as (d' & Hrun & Ht').
    destruct (token_ends_in_digit p d' Ht') as (c & Hc & Hdig).
    exists (p ++ d'), c. repeat split; try assumption.
    now apply token_not_sentinel.
  - intros c H. simpl in H. now injection H as <-.
  - intros x. apply run_total.
Qed.

Lemma C7_sentinel_unambiguous_witness :
  valid_input (Str ("A" ++ "9999"))
  /\ exists out c,
      stringIncrement (Str ("A" ++ "9999")) tt = (Return out, tt)
      /\ last_char out = Some c /\ is_digit c = true
      /\ out <> "Error".
Proof.
  assert (valid_input (Str ("A" ++ "9999"))) as Hv
      by (exists "A", "9999"; split; reflexivity).
  split; [exact Hv|].
  apply (proj1 (C7_sentinel_unambiguous unit tt) (Str ("A" ++ "9999")) Hv).
Defined.

(** C9 (overflow only at 9999).  For a valid input the incremented value
    needs more than 4 digits exactly when the digit part is "9999"; the
    digit part of the result is then "0000", and a digit part of fewer than
    4 digits never overflows.  The function returns the zero-reset result,
    zeros as many as the digit part is long, for the digit part "9999" and
    for no other; without overflow the digit part of the result denotes the
    number plus one and is the representation, padded or grown. *)
Theorem C9_overflow_only_at_9999 (World : Type) (w : World) :
  forall p d : string,
    token p d = true ->
    (overflows d <-> d = "9999")
    /\ (overflows d ->
        stringIncrement (Str (p ++ d)) w = (Return (p ++ "0000"), w))
    /\ ((length d < 4)%nat -> ~ overflows d)
    /\ (stringIncrement (Str (p ++ d)) w
        = (Return (p ++ String_repeat "0" (length d)), w)
        <-> d = "9999")
    /\ ((length d < 4)%nat ->
        stringIncrement (Str (p ++ d)) w
        <> (Return (p ++ String_repeat "0" (length d)), w))
    /\ (d <> "9999" ->
        exists d',
          stringIncrement (Str (p ++ d)) w = (Return (p ++ d'), w)
          /\ d' = (if (length d <? length (incremented d))%nat
                   then incremented d
                   else padStart (incremented d) (length d) "0")
          /\ decimal_value d' = (decimal_value d + 1)%Z).
Proof.
  intros p d Ht.
  pose proof (suffix_length p d Ht) as Hl.
  pose proof (suffix_digits p d Ht) as Hd.
  pose proof (suffix_value p d Ht) as Hv.
  pose proof (zero_reset_only_at_9999 p d Ht w) as Hzero.
  assert (overflows d <-> d = "9999") as Hiff.
  { rewrite (overflows_value p d Ht). split.
    - apply value_9999; [assumption | lia].
    - intros ->. reflexivity. }
  split; [exact Hiff|]. split; [|split; [|split; [exact Hzero|split]]].
  - intros Hover. apply Hiff in Hover. subst d.
    rewrite (run_token p "9999" Ht). reflexivity.
  - intros Hshort Hover. apply Hiff in Hover. subst d.
    simpl in Hshort. lia.
  - intros Hshort Hrun. apply Hzero in Hrun. subst d.
    simpl in Hshort. lia.
  - intros Hne.
    assert (~ overflows d) as Hno by (intros H; now apply Hiff in H).
    unfold overflows in Hno.
    destruct (run_token_value p d Ht w) as (d' & Hrun & _ & _ & Hval).
    exists d'. split; [exact Hrun|].
    assert (decimal_value d <> 9999%Z) as Hv9.
    { intros E. apply Hne. apply value_9999; [assumption | lia | exact E]. }
    pose proof (pow10_mono (length d) 4 ltac:(lia)) as Hm.
    change (10 ^ Z.of_nat 4)%Z with 10000%Z in Hm.
    rewrite Z.mod_small in Hval by lia.
    split; [|exact Hval].
    rewrite (run_token p d Ht) in Hrun. injection Hrun as Hrun.
    apply string_app_inv_head in Hrun. subst d'.
    destruct (Nat.ltb_spec 4 (length (incremented d))); [lia | reflexivity].
Qed.

Lemma C9_overflow_only_at_9999_witness :
  token "A" "9999" = true
  /\ (overflows "9999" <-> "9999" = "9999")
  /\ (overflows "9999" ->
      stringIncrement (Str ("A" ++ "9999")) tt = (Return ("A" ++ "0000"), tt))
  /\ ((length "9999" < 4)%nat -> ~ overflows "9999")
  /\ (stringIncrement (Str ("A" ++ "9999")) tt
      = (Return ("A" ++ String_repeat "0" (length "9999")), tt)
      <-> "9999" = "9999").
Proof.
  assert (token "A" "9999" = true) as Ht by reflexivity.
  split; [exact Ht|].
  destruct (C9_overflow_only_at_9999 unit tt "A" "9999" Ht)
    as (H1 & H2 & H3 & H4 & _).
  auto.
Defined.

(** C10 (the length guard is unreachable).  Whenever the pattern matches,
    the match array has exactly 3 entries, so the test [match.length < 3] is
    false; on a string input the call returns the sentinel exactly when the
    pattern does not match. *)
Theorem C10_length_guard_unreachable (World : Type) (w : World) :
  (forall (s : string) (m : list string),
      Regex.exec s = Some m ->
      List.length m = 3%nat /\ (List.length m <? 3)%nat = false)
  /\ (forall s : string,
        stringIncrement (Str s) w = (Return "Error", w)
        <-> Regex.exec s = None).
Proof.
  split.
  - intros s m H. apply RegexFacts.exec_some in H.
    destruct H as (p & d & _ & _ & ->). split; reflexivity.
  - intros s. split; [|apply run_no_match].
    intros Hrun. destruct (Regex.exec s) as [m|] eqn:E; [|reflexivity].
    apply RegexFacts.exec_some in E. destruct E as (p & d & Ht & -> & _).
    destruct (run_token_closed p d Ht w) as (d' & Hrun' & Ht').
    rewrite Hrun' in Hrun. injection Hrun as Hrun.
    now destruct (token_not_sentinel p d' Ht').
Qed.

Lemma C10_length_guard_unreachable_witness :
  Regex.exec "A1" = Some ["A1"; "A"; "1"]
  /\ List.length ["A1"; "A"; "1"] = 3%nat
  /\ (List.length ["A1"; "A"; "1"] <? 3)%nat = false.
Proof.
  assert (Regex.exec "A1" = Some ["A1"; "A"; "1"]) as Hm by reflexivity.
  split; [exact Hm|].
  apply (proj1 (C10_length_guard_unreachable unit tt) "A1" _ Hm).
Defined.

(** * Further properties of [stringIncrement] *)

(** Digit strings of one length are determined by their value. *)
Lemma decimal_value_inj (s : string) : forall t,
  all_chars is_digit s = true -> all_chars is_digit t = true ->
  length s = length t -> decimal_value s = decimal_value t -> s = t.
Proof.
  induction s as [|a s IH]; intros [|b t] Hs Ht Hl Hv;
    try discriminate Hl; [reflexivity|].
  cbn [all_chars] in Hs, Ht. apply andb_true_iff in Hs, Ht.
  destruct Hs as [Ha Hs], Ht as [Hb Ht].
  cbn [length] in Hl. injection Hl as Hl.
  rewrite !decimal_value_cons, <- Hl in Hv.
  pose proof (decimal_value_bound s Hs) as Bs.
  pose proof (decimal_value_bound t Ht) as Bt. rewrite <- Hl in Bt.
  pose proof (digit_value_range a Ha). pose proof (digit_value_range b Hb).
  remember (10 ^ Z.of_nat (length s))%Z as P.
  assert (digit_value a = digit_value b) as Hd.
  { destruct (Z.lt_trichotomy (digit_value a) (digit_value b))
      as [L | [E | G]]; [exfalso; nia | exact E | exfalso; nia]. }
  assert (decimal_value s = decimal_value t) as Hr by (rewrite Hd in Hv; lia).
  rewrite <- (digit_char_value a Ha), <- (digit_char_value b Hb), Hd.
  f_equal. now apply IH.
Qed.



(** X2 (injective at equal width).  Two valid inputs whose digit parts have
    the same length and which give the same result are the same input. *)
Theorem increment_injective_same_width (World : Type) (w : World)
        (p1 d1 p2 d2 : string) :
  token p1 d1 = true -> token p2 d2 = true ->
  length d1 = length d2 ->
  stringIncrement (Str (p1 ++ d1)) w = stringIncrement (Str (p2 ++ d2)) w ->
  p1 ++ d1 = p2 ++ d2.
Proof.
  intros H1 H2 Hlen Heq.
  destruct (run_token_value p1 d1 H1 w) as (e1 & R1 & D1 & _ & V1).
  destruct (run_token_value p2 d2 H2 w) as (e2 & R2 & D2 & _ & V2).
  rewrite R1, R2 in Heq. injection Heq as Heq.
  destruct (RegexFacts.split_unique p1 p2 e1 e2
              (prefix_letters p1 d1 H1) (prefix_letters p2 d2 H2) D1 D2 Heq)
    as [-> ->].
  f_equal.
  pose proof (suffix_value p2 d1 H1) as B1.
  pose proof (suffix_value p2 d2 H2) as B2.
  pose proof (suffix_length p2 d1 H1) as L1.
  pose proof (suffix_length p2 d2 H2) as L2.
  pose proof (pow10_mono (length d1) 4 ltac:(lia)) as M1.
  pose proof (pow10_mono (length d2) 4 ltac:(lia)) as M2.
  change (10 ^ Z.of_nat 4)%Z with 10000%Z in M1, M2.
  apply decimal_value_inj;
    [apply (suffix_digits p2 d1 H1) | apply (suffix_digits p2 d2 H2)
    | assumption |].
  rewrite V1 in V2.
  destruct (Z.eq_dec (decimal_value d1) 9999) as [E1 | N1];
    destruct (Z.eq_dec (decimal_value d2) 9999) as [E2 | N2];
    try congruence.
  - rewrite E1 in V2. change ((9999 + 1) mod 10000)%Z with 0%Z in V2.
    rewrite Z.mod_small in V2 by lia. lia.
  - rewrite E2 in V2. change ((9999 + 1) mod 10000)%Z with 0%Z in V2.
    rewrite Z.mod_small in V2 by lia. lia.
  - rewrite !Z.mod_small in V2 by lia. lia.
Qed.

Lemma increment_injective_same_width_witness :
  token "A" "12" = true /\ token "A" "12" = true
  /\ length "12" = length "12"
  /\ "A" ++ "12" = "A" ++ "12".
Proof.
  assert (token "A" "12" = true) as Ht by reflexivity.
  split; [exact Ht|]. split; [exact Ht|]. split; [reflexivity|].
  apply (increment_injective_same_width unit tt "A" "12" "A" "12" Ht Ht);
    reflexivity.
Defined.

(** X3 (collision on growth).  When the digit part grows by a digit, the
    same input with one more leading zero gives the same result: the
    function is not injective across widths ("A9" and "A09" both give
    "A10"). *)
Theorem increment_collision_on_growth (World : Type) (w : World)
        (p d : string) :
  token p d = true ->
  (length d < length (incremented d))%nat ->
  (length (incremented d) <= 4)%nat ->
  token p (String "0" d) = true
  /\ stringIncrement (Str (p ++ String "0" d)) w
     = stringIncrement (Str (p ++ d)) w
  /\ p ++ String "0" d <> p ++ d.
Proof.
  intros Ht Hgrow Hfit.
  pose proof (incremented_length p d Ht) as Hi.
  apply RegexFacts.token_parts in Ht as Hparts.
  destruct Hparts as (Hlp & Hp & Hld & Hd).
  assert (token p (String "0" d) = true) as Ht0.
  { apply RegexFacts.token_parts. cbn [length all_chars].
    rewrite Hd. repeat split; try assumption; try lia. }
  assert (incremented (String "0" d) = incremented d) as Hinc.
  { unfold incremented. rewrite decimal_value_cons.
    change (digit_value "0") with 0%Z. f_equal; lia. }
  split; [exact Ht0|]. split.
  - rewrite (run_token p d Ht), (run_token p _ Ht0), Hinc.
    cbn [length].
    destruct (Nat.ltb_spec 4 (length (incremented d))); [lia|].
    destruct (Nat.ltb_spec (length d) (length (incremented d))); [|lia].
    destruct (Nat.ltb_spec (S (length d)) (length (incremented d))); [lia|].
    rewrite padStart_zero.
    replace (S (length d) - length (incremented d))%nat with 0%nat by lia.
    reflexivity.
  - intros E. apply (f_equal length) in E.
    rewrite !string_length_app in E. cbn [length] in E. lia.
Qed.

Lemma increment_collision_on_growth_witness :
  token "A" "9" = true
  /\ (length "9" < length (incremented "9"))%nat
  /\ (length (incremented "9") <= 4)%nat
  /\ token "A" "09" = true
  /\ stringIncrement (Str ("A" ++ "09")) tt
     = stringIncrement (Str ("A" ++ "9")) tt
  /\ "A" ++ "09" <> "A" ++ "9".
Proof.
  assert (token "A" "9" = true) as Ht by reflexivity.
  assert (length "9" < length (incremented "9"))%nat as Hg
      by (vm_compute; lia).
  assert (length (incremented "9") <= 4)%nat as Hf by (vm_compute; lia).
  split; [exact Ht|]. split; [exact Hg|]. split; [exact Hf|].
  apply (increment_collision_on_growth unit tt "A" "9" Ht Hg Hf).
Defined.

Lemma token_first_letter (p d : string) :
  token p d = true ->
  exists c s, p ++ d = String c s /\ is_letter c = true.
Proof.
  intros H. apply RegexFacts.token_parts in H.
  destruct H as (Hl & Hp & _). destruct p as [|c p]; [simpl in Hl; lia|].
  cbn [all_chars] in Hp. apply andb_true_iff in Hp. destruct Hp as [Hc _].
  now exists c, (p ++ d).
Qed.

Lemma token_length (p d : string) :
  token p d = true -> (2 <= length (p ++ d) <= 8)%nat.
Proof.
  intros H. apply RegexFacts.token_parts in H.
  rewrite string_length_app. lia.
Qed.

(** X4 (rejection by the ends and by the length).  A string whose first
    character is not a letter, or whose last character is not a digit, or
    that has fewer than 2 or more than 8 characters gives "Error".  Nothing
    is trimmed: white space in front of or behind any text gives "Error". *)
Theorem increment_rejects_by_shape (World : Type) (w : World) :
  (forall c s, is_letter c = false ->
     stringIncrement (Str (String c s)) w = (Return "Error", w))
  /\ (forall s c, is_digit c = false ->
        stringIncrement (Str (s ++ String c "")) w = (Return "Error", w))
  /\ (forall s, (length s < 2 \/ 8 < length s)%nat ->
        stringIncrement (Str s) w = (Return "Error", w))
  /\ (forall c s, is_white_space c = true ->
        stringIncrement (Str (String c s)) w = (Return "Error", w)
        /\ stringIncrement (Str (s ++ String c "")) w = (Return "Error", w)).
Proof.
  assert (forall c s, is_letter c = false ->
            stringIncrement (Str (String c s)) w = (Return "Error", w)) as H1.
  { intros c s Hc. apply run_no_match, RegexFacts.exec_none.
    intros p d Ht E. destruct (token_first_letter p d Ht) as (c' & s' & E' & Hl).
    rewrite <- E in E'. injection E' as -> _. congruence. }
  assert (forall s c, is_digit c = false ->
            stringIncrement (Str (s ++ String c "")) w = (Return "Error", w))
    as H2.
  { intros s c Hc. apply run_no_match, RegexFacts.exec_none.
    intros p d Ht E. destruct (token_ends_in_digit p d Ht) as (c' & Hlast & Hd).
    rewrite <- E, last_char_app in Hlast by discriminate.
    simpl in Hlast. injection Hlast as ->. congruence. }
  repeat split.
  - exact H1.
  - exact H2.
  - intros s Hs. apply run_no_match, RegexFacts.exec_none.
    intros p d Ht ->. pose proof (token_length p d Ht). lia.
  - apply H1. destruct c as [[] [] [] [] [] [] [] []];
      try discriminate H; reflexivity.
  - apply H2. destruct c as [[] [] [] [] [] [] [] []];
      try discriminate H; reflexivity.
Qed.

Lemma increment_rejects_by_shape_witness :
  is_white_space " " = true
  /\ stringIncrement (Str (String " " "A1")) tt = (Return "Error", tt)
  /\ stringIncrement (Str ("A1" ++ String " " "")) tt = (Return "Error", tt).
Proof.
  assert (is_white_space " " = true) as Hc by reflexivity.
  split; [exact Hc|].
  apply (proj2 (proj2 (proj2 (increment_rejects_by_shape unit tt)))
           " "%char "A1" Hc).
Defined.

(** Once the suffix has four digits it keeps four digits. *)
Lemma chain_step (p d : string) {World : Type} (w : World) :
  token p d = true -> length d = 4%nat ->
  exists d',
    stringIncrement (Str (p ++ d)) w = (Return (p ++ d'), w)
    /\ token p d' = true /\ length d' = 4%nat
    /\ decimal_value d' = ((decimal_value d + 1) mod 10000)%Z.
Proof.
  intros Ht H4.
  destruct (run_token_value p d Ht w) as (d' & Hrun & Hd' & Hlen & Hv).
  exists d'. repeat split; try assumption; try lia.
  apply RegexFacts.token_parts. repeat split;
    try apply (prefix_length p d Ht);
    try apply (prefix_letters p d Ht); try assumption; lia.
Qed.

(** X5 (a four-digit counter wraps around).  From a valid input with a
    four-digit suffix, [n] calls in a chain give the prefix and the
    four-digit representation of the number plus [n] modulo 10000; after
    10000 calls the input is back. *)
Theorem increment_chain_cycle (World : Type) (w : World) (p d : string) :
  token p d = true -> length d = 4%nat ->
  (forall n : nat,
      exists d',
        increment_chain n (p ++ d) w = (Return (p ++ d'), w)
        /\ token p d' = true /\ length d' = 4%nat
        /\ decimal_value d'
           = ((decimal_value d + Z.of_nat n) mod 10000)%Z)
  /\ increment_chain (Z.to_nat 10000) (p ++ d) w = (Return (p ++ d), w).
Proof.
  intros Ht H4.
  assert (forall n d0, token p d0 = true -> length d0 = 4%nat ->
            exists d',
              increment_chain n (p ++ d0) w = (Return (p ++ d'), w)
              /\ token p d' = true /\ length d' = 4%nat
              /\ decimal_value d'
                 = ((decimal_value d0 + Z.of_nat n) mod 10000)%Z) as Hchain.
  { induction n as [|n IH]; intros d0 Ht0 H40.
    - exists d0. repeat split; try assumption.
      pose proof (suffix_value p d0 Ht0) as Hv. rewrite H40 in Hv.
      change (10 ^ Z.of_nat 4)%Z with 10000%Z in Hv.
      rewrite Z.add_0_r, Z.mod_small; lia.
    - destruct (chain_step p d0 w Ht0 H40) as (d1 & R1 & T1 & L1 & V1).
      destruct (IH d1 T1 L1) as (d2 & R2 & T2 & L2 & V2).
      exists d2. repeat split; try assumption.
      + cbn [increment_chain]. unfold bind. rewrite R1. exact R2.
      + rewrite V2, V1, Nat2Z.inj_succ.
        rewrite Z.add_mod_idemp_l by lia. f_equal. lia. }
  split; [intros n; now apply Hchain|].
  destruct (Hchain (Z.to_nat 10000) d Ht H4) as (d' & R & T & L & V).
  rewrite R. do 3 f_equal.
  apply decimal_value_inj;
    [apply (suffix_digits p d' T) | apply (suffix_digits p d Ht) | lia |].
  rewrite V, Z2Nat.id by lia.
  pose proof (suffix_value p d Ht) as Hv. rewrite H4 in Hv.
  change (10 ^ Z.of_nat 4)%Z with 10000%Z in Hv.
  rewrite <- (Z.mul_1_l 10000) at 1.
  rewrite Z.mod_add, Z.mod_small; lia.
Qed.

Lemma increment_chain_cycle_witness :
  token "ZZ" "9998" = true /\ length "9998" = 4%nat
  /\ increment_chain (Z.to_nat 10000) ("ZZ" ++ "9998") tt
     = (Return ("ZZ" ++ "9998"), tt).
Proof.
  assert (token "ZZ" "9998" = true) as Ht by reflexivity.
  assert (length "9998" = 4%nat) as H4 by reflexivity.
  split; [exact Ht|]. split; [exact H4|].
  apply (proj2 (increment_chain_cycle unit tt "ZZ" "9998" Ht H4)).
Defined.

(** X6 (the sentinel is absorbing).  When the first input of a chain of at
    least one call is not valid, the chain ends in "Error" however long it
    is: the sentinel fed back gives the sentinel. *)
Theorem increment_chain_sentinel (World : Type) (w : World)
        (s : string) (n : nat) :
  ~ valid_input (Str s) ->
  increment_chain (S n) s w = (Return "Error", w).
Proof.
  intros Hs. cbn [increment_chain]. unfold bind at 1.
  rewrite (run_invalid w (Str s) Hs).
  induction n as [|n IH]; [reflexivity|].
  cbn [increment_chain]. unfold bind at 1.
  rewrite (run_no_match w "Error" eq_refl). exact IH.
Qed.

Lemma increment_chain_sentinel_witness :
  ~ valid_input (Str "A1B2")
  /\ increment_chain 3 "A1B2" tt = (Return "Error", tt).
Proof.
  assert (~ valid_input (Str "A1B2")) as Hs
      by (apply invalid_by_exec; reflexivity).
  split; [exact Hs|]. apply (increment_chain_sentinel unit tt "A1B2" 2 Hs).
Defined.

(** X7 (the unit tests pass).  Every case of the table of valid inputs
    returns its expected string and every case of the table of invalid
    inputs returns "Error", so all the data-driven tests of the suite
    succeed on the function. *)
Theorem test_suite_passes :
  TestSuite.valid_tests_pass = true
  /\ TestSuite.invalid_tests_pass = true
  /\ Forall
       (fun c =>
          forall (World : Type) (w : World),
            stringIncrement (Str (TestSuite.input c)) w
            = (Return (TestSuite.expected c), w))
       TestSuite.validTestCases
  /\ Forall
       (fun c =>
          forall (World : Type) (w : World),
            stringIncrement (TestSuite.invalid_input c) w
            = (Return "Error", w))
       TestSuite.invalidTestCases.
Proof.
  split; [reflexivity|]. split; [reflexivity|].
  split; repeat constructor.
Qed.

(** * Numbers *)

Module NumFacts.
Import Num.

Lemma leb_of_Z (a b : Z) : leb (of_Z a) (of_Z b) = (a <=? b)%Z.
Proof.
  cbn [leb of_Z]. destruct (Z.leb_spec a b) as [H | H].
  - apply Qle_bool_iff. now rewrite <- Zle_Qle.
  - destruct (Qle_bool (inject_Z a) (inject_Z b)) eqn:E; [|reflexivity].
    apply Qle_bool_iff in E. rewrite <- Zle_Qle in E. lia.
Qed.

Lemma strict_equal_of_Z (a b : Z) :
  strict_equal (of_Z a) (of_Z b) = (a =? b)%Z.
Proof.
  unfold strict_equal. rewrite !leb_of_Z.
  destruct (Z.leb_spec a b), (Z.leb_spec b a), (Z.eqb_spec a b);
    cbn [andb]; try reflexivity; lia.
Qed.

Lemma leb_mono (a b : Z) (m : num) :
  (a <= b)%Z -> leb (of_Z b) m = true -> leb (of_Z a) m = true.
Proof.
  intros Hab. destruct m as [q | [] | ]; cbn [leb of_Z]; try easy.
  rewrite !Qle_bool_iff. intros H.
  apply Qle_trans with (inject_Z b); [|exact H]. now rewrite <- Zle_Qle.
Qed.

Lemma strict_equal_below (a b : Z) (m : num) :
  (a < b)%Z -> leb (of_Z b) m = true -> strict_equal (of_Z a) m = false.
Proof.
  intros Hab. unfold strict_equal.
  destruct m as [q | [] | ]; cbn [leb of_Z]; try easy.
  intros H. apply Qle_bool_iff in H. apply andb_false_iff. right.
  destruct (Qle_bool q (inject_Z a)) eqn:E; [|reflexivity].
  apply Qle_bool_iff in E.
  assert (Qle (inject_Z b) (inject_Z a)) as Hba
      by (apply Qle_trans with q; assumption).
  rewrite <- Zle_Qle in Hba. lia.
Qed.

Lemma leb_floor (a : Z) (q : Q) :
  leb (of_Z a) (Finite q) = true -> (a <= Qfloor q)%Z.
Proof.
  cbn [leb of_Z]. rewrite Qle_bool_iff. intros H.
  apply Qfloor_resp_le in H. now rewrite Qfloor_Z in H.
Qed.

Lemma to_string_of_Z (number_text : Q -> string) (z : Z) :
  (Z.abs z < 10 ^ 21)%Z ->
  to_string number_text (of_Z z) = Number_toString (Int z).
Proof.
  intros Hz. cbn [to_string of_Z]. unfold is_integer. rewrite Qfloor_Z.
  assert (Qeq_bool (inject_Z z) (inject_Z z) = true) as ->
      by (apply Qeq_bool_iff, Qeq_refl).
  apply Z.ltb_lt in Hz. now rewrite Hz.
Qed.

(** The numbers that are not at least 1. *)
Lemma below_one (m : num) :
  leb (of_Z 1) m = false
  <-> m = NotANumber \/ m = Infinity true
      \/ exists q, m = Finite q /\ Qlt q (inject_Z 1).
Proof.
  destruct m as [q | [] | ]; cbn [leb of_Z].
  - split.
    + intros H. right. right. exists q. split; [reflexivity|].
      apply Qnot_le_lt. intros Hle. apply Qle_bool_iff in Hle. congruence.
    + intros [H | [H | (q' & [= <-] & Hlt)]]; try discriminate H.
      destruct (Qle_bool (inject_Z 1) q) eqn:E; [|reflexivity].
      apply Qle_bool_iff in E. now apply Qlt_not_le in Hlt.
  - split; auto.
  - split; [discriminate|].
    intros [H | [H | (q' & H & _)]]; discriminate H.
  - split; auto.
Qed.

End NumFacts.

(** * [BrowserUtils.retryOperation] *)

Module RetryFacts.
Import Retry.

Lemma attempt_of_small (i : nat) :
  (Z.of_nat i < max_exact)%Z -> attempt_of i = (Z.of_nat i + 1)%Z.
Proof. unfold attempt_of, max_exact. lia. Qed.

Lemma increment_attempt_of (i : nat) :
  increment (attempt_of i) = attempt_of (S i).
Proof.
  unfold increment, attempt_of, max_exact.
  destruct (Z.ltb_spec (Z.min (Z.of_nat i + 1) 9007199254740992)
                       9007199254740992); lia.
Qed.

Lemma attempt_of_le_succ (i : nat) :
  (attempt_of i <= attempt_of (S i) <= attempt_of i + 1)%Z.
Proof. unfold attempt_of, max_exact. lia. Qed.

Section Loop.

Context {T D : Type}.
Variable operation : nat -> thrown + T.
Variable maxRetries : Num.num.
Variable baseDelay : D.
Variable times_pow2 : D -> Z -> D.
Variable number_text : Q -> string.
Variable type_error_text : thrown -> string.

#[local] Abbreviation loop :=
  (retry_loop operation maxRetries baseDelay times_pow2 number_text
              type_error_text).
#[local] Abbreviation delays := (backoff baseDelay times_pow2).
#[local] Abbreviation delay_from j k :=
  (map (fun i => times_pow2 baseDelay (Z.of_nat i)) (seq j k)).

Lemma backoff_snoc (k : nat) :
  delays (S k)
  = (delays k ++ [times_pow2 baseDelay (attempt_of k - 1)])%list.
Proof. unfold backoff. rewrite seq_S, map_app. reflexivity. Qed.

(** Below [2^53] invocations the delays double. *)
Lemma backoff_doubling (k : nat) :
  (Z.of_nat k <= max_exact)%Z ->
  delays k = doubling baseDelay times_pow2 k.
Proof.
  intros Hk. unfold backoff, doubling. apply map_ext_in.
  intros i Hi. apply in_seq in Hi. f_equal.
  rewrite attempt_of_small; lia.
Qed.

(** The loop entered after [j] failed invocations, when the next [k]
    invocations fail and the one after them succeeds. *)
Lemma loop_success (v : T) (k : nat) : forall fuel j sl lastError,
  (forall i, (i < k)%nat -> exists e, operation (j + i) = inl e) ->
  operation (j + k) = inr v ->
  (Z.of_nat (j + k) < max_exact)%Z ->
  Num.leb (Num.of_Z (Z.of_nat (j + k) + 1)) maxRetries = true ->
  (k < fuel)%nat ->
  loop fuel (Z.of_nat j + 1)%Z lastError {| calls := j; sleeps := sl |}
  = Some (Resolved v,
          {| calls := S (j + k);
             sleeps := (sl ++ delay_from j k)%list |}).
Proof.
  induction k as [|k IH];
    intros fuel j sl lastError Hfail Hok Hsmall Hmax Hfuel;
    (destruct fuel as [|fuel]; [lia|]); cbn [retry_loop].
  - rewrite Nat.add_0_r in Hmax, Hok. rewrite Hmax.
    unfold call_operation. cbn [calls sleeps].
    rewrite Hok, Nat.add_0_r. cbn [seq map]. now rewrite app_nil_r.
  - assert (Z.of_nat j + 1 < Z.of_nat (j + S k) + 1)%Z as Hlt by lia.
    rewrite (NumFacts.leb_mono _ _ _ (Z.lt_le_incl _ _ Hlt) Hmax).
    unfold call_operation. cbn [calls sleeps].
    destruct (Hfail 0%nat ltac:(lia)) as [e He].
    rewrite Nat.add_0_r in He. rewrite He.
    rewrite (NumFacts.strict_equal_below _ _ _ Hlt Hmax).
    unfold sleep. cbn [calls sleeps].
    assert (increment (Z.of_nat j + 1) = Z.of_nat (S j) + 1)%Z as ->.
    { rewrite <- !attempt_of_small by lia. apply increment_attempt_of. }
    replace (Z.of_nat j + 1 - 1)%Z with (Z.of_nat j) by lia.
    rewrite (IH fuel (S j)).
    + cbn [seq map]. rewrite <- app_assoc. cbn [app].
      do 3 f_equal. lia.
    + intros i Hi. replace (S j + i)%nat with (j + S i)%nat by lia.
      apply Hfail. lia.
    + now replace (S j + k)%nat with (j + S k)%nat by lia.
    + lia.
    + now replace (S j + k)%nat with (j + S k)%nat by lia.
    + lia.
Qed.

(** The loop entered after [j] failed invocations when [maxRetries] is
    the integer [j + k + 1] and every invocation up to the last attempt
    fails. *)
Lemma loop_exhausted (err : nat -> thrown) (k : nat) :
  forall fuel j sl lastError,
  (forall i, (i <= k)%nat -> operation (j + i) = inl (err (j + i)%nat)) ->
  (Z.of_nat (j + k) < max_exact)%Z ->
  maxRetries = Num.of_Z (Z.of_nat (j + k) + 1) ->
  (k < fuel)%nat ->
  loop fuel (Z.of_nat j + 1)%Z lastError {| calls := j; sleeps := sl |}
  = Some (Rejected
            (exhausted_error maxRetries number_text type_error_text
                             (err (j + k)%nat)),
          {| calls := S (j + k);
             sleeps := (sl ++ delay_from j k)%list |}).
Proof.
  induction k as [|k IH];
    intros fuel j sl lastError Hfail Hsmall Hmax Hfuel;
    (destruct fuel as [|fuel]; [lia|]); cbn [retry_loop].
  - assert (Num.leb (Num.of_Z (Z.of_nat j + 1)) maxRetries = true) as ->
        by (rewrite Hmax, NumFacts.leb_of_Z; apply Z.leb_le; lia).
    assert (Num.strict_equal (Num.of_Z (Z.of_nat j + 1)) maxRetries = true)
        as -> by (rewrite Hmax, NumFacts.strict_equal_of_Z;
                  apply Z.eqb_eq; lia).
    unfold call_operation. cbn [calls sleeps].
    pose proof (Hfail 0%nat ltac:(lia)) as He.
    rewrite Nat.add_0_r in He. rewrite He, Nat.add_0_r.
    cbn [seq map]. now rewrite app_nil_r.
  - assert (Num.leb (Num.of_Z (Z.of_nat j + 1)) maxRetries = true) as ->
        by (rewrite Hmax, NumFacts.leb_of_Z; apply Z.leb_le; lia).
    assert (Num.strict_equal (Num.of_Z (Z.of_nat j + 1)) maxRetries = false)
        as -> by (rewrite Hmax, NumFacts.strict_equal_of_Z;
                  apply Z.eqb_neq; lia).
    unfold call_operation. cbn [calls sleeps].
    pose proof (Hfail 0%nat ltac:(lia)) as He.
    rewrite Nat.add_0_r in He. rewrite He.
    unfold sleep. cbn [calls sleeps].
    assert (increment (Z.of_nat j + 1) = Z.of_nat (S j) + 1)%Z as ->.
    { rewrite <- !attempt_of_small by lia. apply increment_attempt_of. }
    replace (Z.of_nat j + 1 - 1)%Z with (Z.of_nat j) by lia.
    rewrite (IH fuel (S j)).
    + cbn [seq map]. rewrite <- app_assoc. cbn [app].
      replace (S j + k)%nat with (j + S k)%nat by lia. reflexivity.
    + intros i Hi. replace (S j + i)%nat with (j + S i)%nat by lia.
      apply Hfail. lia.
    + lia.
    + rewrite Hmax. f_equal. lia.
    + lia.
Qed.

(** What every run that ends keeps.  An attempt is made only while its
    number is at most [maxRetries]; the sleeps are the delays of the
    failed attempts in order, one for every invocation or for every
    invocation but the last; a resolved promise carries the value of the
    last invocation; and without an invocation the state is as it was. *)
Lemma loop_invariant : forall fuel j lastError r st',
  loop fuel (attempt_of j) lastError
       {| calls := j; sleeps := delays j |} = Some (r, st') ->
  (j <= calls st')%nat
  /\ (calls st' = j
      \/ Num.leb (Num.of_Z (attempt_of (calls st' - 1))) maxRetries = true)
  /\ (sleeps st' = delays (calls st')
      /\ r = Rejected (throw_last
                         (if (j <? calls st')%nat
                          then match operation (calls st' - 1) with
                               | inl e => Some e
                               | inr _ => None
                               end
                          else lastError))
      \/ (j < calls st')%nat /\ sleeps st' = delays (calls st' - 1))
  /\ (forall v, r = Resolved v ->
        (j < calls st')%nat /\ operation (calls st' - 1) = inr v
        /\ sleeps st' = delays (calls st' - 1)).
Proof.
  induction fuel as [|fuel IH]; intros j lastError r st' Hrun;
    cbn [retry_loop] in Hrun; [discriminate Hrun|].
  destruct (Num.leb (Num.of_Z (attempt_of j)) maxRetries) eqn:Hle.
  - unfold call_operation in Hrun. cbn [calls sleeps] in Hrun.
    destruct (operation j) as [e|v] eqn:Hop.
    + destruct (Num.strict_equal (Num.of_Z (attempt_of j)) maxRetries).
      * injection Hrun as <- <-. cbn [calls sleeps].
        replace (S j - 1)%nat with j by lia.
        split; [lia|]. split; [right; exact Hle|].
        split; [right; split; [lia | reflexivity] | discriminate].
      * unfold sleep in Hrun. cbn [calls sleeps] in Hrun.
        rewrite increment_attempt_of, <- backoff_snoc in Hrun.
        apply IH in Hrun. destruct Hrun as (Hc & Hb & Hs & Hv).
        split; [lia|]. split.
        { right. destruct Hb as [Hb | Hb]; [|exact Hb].
          rewrite Hb. replace (S j - 1)%nat with j by lia. exact Hle. }
        split.
        { destruct Hs as [[Hs Hr] | [Hlt Hs]].
          - left. split; [exact Hs|].
            destruct (Nat.ltb_spec (S j) (calls st')) as [H1 | H1].
            + destruct (Nat.ltb_spec j (calls st')); [exact Hr | lia].
            + assert (calls st' = S j) as E by lia.
              destruct (Nat.ltb_spec j (calls st')); [|lia].
              rewrite E. replace (S j - 1)%nat with j by lia.
              now rewrite Hop.
          - right. split; [lia | exact Hs]. }
        intros v Hr. destruct (Hv v Hr) as (H1 & H2 & H3).
        split; [lia | split; assumption].
    + injection Hrun as <- <-. cbn [calls sleeps].
      replace (S j - 1)%nat with j by lia.
      split; [lia|]. split; [right; exact Hle|].
      split; [right; split; [lia | reflexivity]|].
      intros v' [= <-]. split; [lia | split; [exact Hop | reflexivity]].
  - injection Hrun as <- <-. cbn [calls sleeps].
    split; [lia|]. split; [now left|]. split.
    + left. split; [reflexivity|]. now rewrite Nat.ltb_irrefl.
    + discriminate.
Qed.

(** With an integer [maxRetries] the loop is never left by its test after
    an invocation: the last attempt returns or gives up. *)
Lemma loop_integer (z : Z) : forall fuel j lastError r st',
  maxRetries = Num.of_Z z ->
  (j = 0%nat \/ attempt_of (j - 1) < z)%Z ->
  loop fuel (attempt_of j) lastError
       {| calls := j; sleeps := delays j |} = Some (r, st') ->
  sleeps st' = delays (calls st' - 1)
  /\ (calls st' = j -> j = 0%nat).
Proof.
  intros fuel j lastError r st' Hz. revert j lastError r st'.
  induction fuel as [|fuel IH]; intros j lastError r st' Hj Hrun;
    cbn [retry_loop] in Hrun; [discriminate Hrun|].
  assert (Num.leb (Num.of_Z (attempt_of j)) maxRetries
          = (attempt_of j <=? z)%Z) as E1
      by (rewrite Hz; apply NumFacts.leb_of_Z).
  assert (Num.strict_equal (Num.of_Z (attempt_of j)) maxRetries
          = (attempt_of j =? z)%Z) as E2
      by (rewrite Hz; apply NumFacts.strict_equal_of_Z).
  rewrite E1, E2 in Hrun. clear E1 E2.
  destruct (Z.leb_spec (attempt_of j) z) as [Hle | Hgt].
  - unfold call_operation in Hrun. cbn [calls sleeps] in Hrun.
    destruct (operation j) as [e|v].
    + destruct (Z.eqb_spec (attempt_of j) z) as [Heq | Hne].
      * injection Hrun as <- <-. cbn [calls sleeps].
        replace (S j - 1)%nat with j by lia. split; [reflexivity | lia].
      * unfold sleep in Hrun. cbn [calls sleeps] in Hrun.
        rewrite increment_attempt_of, <- backoff_snoc in Hrun.
        pose proof Hrun as Hinv. apply loop_invariant in Hinv.
        destruct Hinv as (Hc & _).
        apply IH in Hrun.
        { destruct Hrun as (Hs & Hn). split; [exact Hs|]. intros E. lia. }
        right. replace (S j - 1)%nat with j by lia. lia.
    + injection Hrun as <- <-. cbn [calls sleeps].
      replace (S j - 1)%nat with j by lia. split; [reflexivity | lia].
  - injection Hrun as <- <-. cbn [calls sleeps].
    destruct Hj as [-> | Hj]; [split; reflexivity|].
    exfalso. destruct j as [|j]; [unfold attempt_of, max_exact in *; lia|].
    replace (S j - 1)%nat with j in Hj by lia.
    pose proof (attempt_of_le_succ j). lia.
Qed.

(** More loop tests than [maxRetries] allows attempts are enough for the
    run to end. *)
Lemma loop_ends (q : Q) : forall fuel j lastError st,
  maxRetries = Num.Finite q ->
  (Qfloor q < max_exact)%Z ->
  (0 < fuel)%nat ->
  (Qfloor q < Z.of_nat (j + fuel))%Z ->
  exists r st', loop fuel (attempt_of j) lastError st = Some (r, st').
Proof.
  induction fuel as [|fuel IH]; intros j lastError st Hq Hsmall Hpos Hfuel;
    [lia|]. cbn [retry_loop].
  destruct (Num.leb (Num.of_Z (attempt_of j)) maxRetries) eqn:Hle;
    [|eauto].
  rewrite Hq in Hle. apply NumFacts.leb_floor in Hle.
  destruct (call_operation operation st) as [[e|v] st1]; [|eauto].
  destruct (Num.strict_equal (Num.of_Z (attempt_of j)) maxRetries);
    [eauto|].
  rewrite increment_attempt_of.
  assert (Z.of_nat j + 1 <= Qfloor q)%Z
    by (unfold attempt_of in Hle; lia).
  apply IH; [assumption | assumption | lia | lia].
Qed.

End Loop.

(** X8 (retryOperation, first success).  When the first [k] invocations of
    the operation throw, the next one returns [v], and its number [k + 1]
    is at most [maxRetries] (which may be any number: an integer, a
    fraction, [Infinity]), the promise resolves with [v] after exactly
    [k + 1] invocations and the [k] sleeps [baseDelay * 2^0], ...,
    [baseDelay * 2^(k-1)], in this order. *)
Theorem retry_first_success {T D : Type} (operation : nat -> thrown + T)
    (maxRetries : Num.num) (baseDelay : D) (times_pow2 : D -> Z -> D)
    (number_text : Q -> string) (type_error_text : thrown -> string)
    (k fuel : nat) (v : T) :
  (forall i, (i < k)%nat -> exists e, operation i = inl e) ->
  operation k = inr v ->
  (Z.of_nat k < max_exact)%Z ->
  Num.leb (Num.of_Z (Z.of_nat k + 1)) maxRetries = true ->
  (k < fuel)%nat ->
  retryOperation operation maxRetries baseDelay times_pow2 number_text
                 type_error_text fuel initial
  = Some (Resolved v,
          {| calls := S k; sleeps := doubling baseDelay times_pow2 k |}).
Proof.
  intros Hfail Hok Hsmall Hmax Hfuel. unfold retryOperation, initial.
  apply (loop_success operation maxRetries baseDelay times_pow2
           number_text type_error_text v k fuel 0%nat []);
    assumption.
Qed.

Lemma retry_first_success_witness :
  retryOperation
    (fun i => if (i <? 1)%nat then inl (ErrorObject "Error" "busy")
              else inr 7%Z)
    (Num.Finite (5 # 2)%Q) 1000%Z (fun b n => (b * 2 ^ n)%Z)
    (fun _ => "2.5") (fun _ => "") 5 initial
  = Some (Resolved 7%Z, {| calls := 2; sleeps := [1000%Z] |}).
Proof.
  apply (retry_first_success
           (fun i => if (i <? 1)%nat then inl (ErrorObject "Error" "busy")
                     else inr 7%Z)
           (Num.Finite (5 # 2)%Q) 1000%Z (fun b n => (b * 2 ^ n)%Z)
           (fun _ => "2.5") (fun _ => "") 1 5 7%Z).
  - intros i Hi. exists (ErrorObject "Error" "busy").
    destruct i as [|i]; [reflexivity | lia].
  - reflexivity.
  - reflexivity.
  - reflexivity.
  - lia.
Defined.



(** X10 (retryOperation, no attempt).  When [maxRetries] is not at least 1
    (zero, a negative number, a fraction below 1, [-Infinity] or [NaN]), the
    operation is never invoked, nothing sleeps, and the promise is rejected
    with [undefined], the unassigned [lastError]. *)
Theorem retry_without_attempt {T D : Type} (operation : nat -> thrown + T)
    (maxRetries : Num.num) (baseDelay : D) (times_pow2 : D -> Z -> D)
    (number_text : Q -> string) (type_error_text : thrown -> string)
    (fuel : nat) (st : state) :
  Num.leb (Num.of_Z 1) maxRetries = false ->
  retryOperation operation maxRetries baseDelay times_pow2 number_text
                 type_error_text (S fuel) st
  = Some (Rejected UndefinedValue, st).
Proof.
  intros Hle. unfold retryOperation. cbn [retry_loop].
  rewrite Hle. reflexivity.
Qed.

Lemma retry_without_attempt_witness :
  retryOperation (fun _ => (inr 7%Z : thrown + Z)) (Num.of_Z 0) 1000%Z
                 (fun b n => (b * 2 ^ n)%Z) (fun _ => "") (fun _ => "")
                 1 initial
  = Some (Rejected UndefinedValue, initial).
Proof.
  apply (retry_without_attempt (fun _ => (inr 7%Z : thrown + Z))
           (Num.of_Z 0) 1000%Z (fun b n => (b * 2 ^ n)%Z)
           (fun _ => "") (fun _ => "") 0 initial).
  reflexivity.
Defined.



End RetryFacts.

(** * [DateUtils] *)

Module PatternFacts.
Import Pattern.

Lemma test_nil (s : string) : test [] s = true <-> s = "".
Proof. apply String.eqb_eq. Qed.

(** A pattern matches when its first item matches a prefix within its
    bounds and the rest matches what follows. *)
Lemma test_cons_intro (it : item) (rest : list item) (m r : string) :
  all_chars (cls it) m = true ->
  (lo it <= length m <= bound it (m ++ r))%nat ->
  test rest r = true ->
  test (it :: rest) (m ++ r) = true.
Proof.
  intros Hm Hl Hr. cbn [test]. apply existsb_exists.
  exists (m, r). split; [|exact Hr].
  now apply RegexFacts.rep_complete.
Qed.

Lemma test_cons_elim (it : item) (rest : list item) (s : string) :
  test (it :: rest) s = true ->
  exists m r,
    s = m ++ r /\ all_chars (cls it) m = true
    /\ (lo it <= length m)%nat /\ test rest r = true.
Proof.
  cbn [test]. intros H. apply existsb_exists in H.
  destruct H as ([m r] & Hin & Hr). apply RegexFacts.rep_sound in Hin.
  destruct Hin as (-> & Hm & Hl & _). now exists m, r.
Qed.

Lemma last_char_class (cls : ascii -> bool) (s : string) :
  all_chars cls s = true -> s <> "" ->
  exists c, last_char s = Some c /\ cls c = true.
Proof.
  induction s as [|c s IH]; intros H Hne; [congruence|].
  cbn [all_chars] in H. apply andb_true_iff in H. destruct H as [Hc Hs].
  destruct s as [|c' s].
  - exists c. auto.
  - apply IH; [assumption | discriminate].
Qed.

(** A match ends in a character of the class of the last item, when that
    item cannot be empty. *)
Lemma test_last (it : item) (items : list item) : forall s,
  (1 <= lo it)%nat ->
  test (items ++ [it]) s = true ->
  exists c, last_char s = Some c /\ cls it c = true.
Proof.
  intros s Hlo. revert s.
  induction items as [|i0 items IH]; intros s H.
  - apply test_cons_elim in H. destruct H as (m & r & -> & Hm & Hl & Hr).
    apply test_nil in Hr. subst r. rewrite string_app_empty_r.
    apply last_char_class; [assumption|].
    intros ->. simpl in Hl. lia.
  - change ((i0 :: items) ++ [it])%list with (i0 :: (items ++ [it]))%list
      in H.
    apply test_cons_elim in H. destruct H as (m & r & -> & _ & _ & Hr).
    destruct (IH r Hr) as (c & Hc & Hcls).
    exists c. split; [|assumption].
    rewrite last_char_app; [assumption|]. intros ->. discriminate Hc.
Qed.

Lemma exec_cons_elim (it : item) (rest : list item) (s : string)
      (parts : list string) :
  exec (it :: rest) s = Some parts ->
  exists m r parts',
    parts = m :: parts' /\ s = m ++ r /\ all_chars (cls it) m = true
    /\ (lo it <= length m <= bound it s)%nat /\ exec rest r = Some parts'.
Proof.
  cbn [exec]. intros H. apply RegexFacts.first_success_some in H.
  destruct H as ([m r] & Hin & Hr). cbn [fst snd] in Hr.
  apply RegexFacts.rep_sound in Hin. destruct Hin as (E & Hm & Hl).
  destruct (exec rest r) as [parts'|] eqn:Er; [|discriminate Hr].
  cbn [option_map] in Hr. injection Hr as <-.
  exists m, r, parts'. auto.
Qed.

Lemma char_piece (c : ascii) (m : string) :
  all_chars (Ascii.eqb c) m = true -> (1 <= length m <= 1)%nat ->
  m = String c "".
Proof.
  intros Hc Hl. destruct m as [|c' [|c'' m]]; simpl in Hl; try lia.
  cbn [all_chars] in Hc. apply andb_true_iff in Hc. destruct Hc as [Hc _].
  apply Ascii.eqb_eq in Hc. now subst.
Qed.

Lemma digits_piece (k : nat) (m : string) :
  (S k <= length m)%nat -> m <> "".
Proof. intros Hl ->. simpl in Hl. lia. Qed.

End PatternFacts.

Module DateUtilsFacts.
Import Pattern PatternFacts DateUtils.

Lemma skip_all_space (s : string) :
  all_chars is_white_space s = true -> skip_white_space s = "".
Proof.
  induction s as [|c s IH]; cbn [all_chars skip_white_space];
    [reflexivity|].
  intros H. apply andb_true_iff in H. destruct H as [Hc Hs].
  rewrite Hc. now apply IH.
Qed.

Lemma skip_space_app (l s : string) :
  all_chars is_white_space l = true ->
  skip_white_space (l ++ s) = skip_white_space s.
Proof.
  induction l as [|c l IH]; cbn [all_chars skip_white_space append];
    [reflexivity|].
  intros H. apply andb_true_iff in H. destruct H as [Hc Hl].
  rewrite Hc. now apply IH.
Qed.

Lemma trim_end_all_space (s : string) :
  all_chars is_white_space s = true -> trim_end s = "".
Proof.
  induction s as [|c s IH]; cbn [all_chars trim_end]; [reflexivity|].
  intros H. apply andb_true_iff in H. destruct H as [Hc Hs].
  now rewrite (IH Hs), Hc.
Qed.

Lemma trim_end_app (s r : string) :
  all_chars is_white_space r = true -> trim_end (s ++ r) = trim_end s.
Proof.
  intros Hr. induction s as [|c s IH]; cbn [append trim_end].
  - now apply trim_end_all_space.
  - now rewrite IH.
Qed.

Lemma trim_app_right (s r : string) :
  all_chars is_white_space r = true ->
  trim_end (skip_white_space (s ++ r)) = trim_end (skip_white_space s).
Proof.
  intros Hr. induction s as [|c s IH]; cbn [append skip_white_space].
  - now rewrite (skip_all_space r Hr).
  - destruct (is_white_space c); [exact IH|].
    change (String c (s ++ r)) with (String c s ++ r).
    now apply trim_end_app.
Qed.

(** [trim] removes white space put around a string. *)
Lemma trim_surrounded (l s r : string) :
  all_chars is_white_space l = true -> all_chars is_white_space r = true ->
  trim (l ++ s ++ r) = trim s.
Proof.
  intros Hl Hr. unfold trim.
  now rewrite skip_space_app, trim_app_right.
Qed.

Lemma trim_end_fixed (s : string) (c : ascii) :
  last_char s = Some c -> is_white_space c = false -> trim_end s = s.
Proof.
  induction s as [|a s IH]; intros Hlast Hc; [discriminate|].
  cbn [trim_end]. destruct s as [|b s].
  - simpl in Hlast. injection Hlast as ->. cbn [trim_end]. now rewrite Hc.
  - rewrite (IH Hlast Hc). reflexivity.
Qed.

(** [trim] leaves alone a string that begins and ends with something
    other than white space. *)
Lemma trim_fixed (a : ascii) (s : string) (c : ascii) :
  is_white_space a = false ->
  last_char (String a s) = Some c -> is_white_space c = false ->
  trim (String a s) = String a s.
Proof.
  intros Ha Hlast Hc. unfold trim. cbn [skip_white_space]. rewrite Ha.
  now apply (trim_end_fixed _ c).
Qed.

Lemma letter_not_space (c : ascii) :
  is_letter c = true -> is_white_space c = false.
Proof. destruct c as [[] [] [] [] [] [] [] []]; vm_compute; congruence. Qed.

(** X12 (white space around the value is ignored).  White space before and
    after a value does not change what [looksLikeDate] answers. *)
Theorem looksLikeDate_trims (l s r : string) :
  all_chars is_white_space l = true -> all_chars is_white_space r = true ->
  looksLikeDate (l ++ s ++ r) = looksLikeDate s.
Proof.
  intros Hl Hr. unfold looksLikeDate. now rewrite trim_surrounded.
Qed.

Lemma looksLikeDate_trims_witness :
  all_chars is_white_space "  " = true
  /\ all_chars is_white_space (String "009" "") = true
  /\ looksLikeDate ("  " ++ "8/22/2025" ++ String "009" "")
     = looksLikeDate "8/22/2025".
Proof.
  assert (all_chars is_white_space "  " = true) as Hl by reflexivity.
  assert (all_chars is_white_space (String "009" "") = true) as Hr
      by reflexivity.
  split; [exact Hl|]. split; [exact Hr|].
  apply (looksLikeDate_trims "  " "8/22/2025" (String "009" "") Hl Hr).
Defined.

Lemma is_digit_first (m : string) :
  all_chars is_digit m = true -> (1 <= length m)%nat ->
  exists c r, m = String c r /\ is_digit c = true.
Proof.
  intros Hm Lm. destruct m as [|c r]; [simpl in Lm; lia|].
  cbn [all_chars] in Hm. apply andb_true_iff in Hm. destruct Hm as [Hc _].
  now exists c, r.
Qed.

(** A string that starts with a digit or a letter and ends with a digit is
    its own [trim]. *)
Lemma trim_fixed_ends (c : ascii) (s e : string) :
  is_white_space c = false ->
  all_chars is_digit e = true -> (1 <= length e)%nat ->
  trim (String c (s ++ e)) = String c (s ++ e).
Proof.
  intros Hc He Le.
  assert (e <> "") as Hne by (intros ->; simpl in Le; lia).
  destruct (last_char_class is_digit e He Hne) as (z & Hz & Hzd).
  apply (trim_fixed c _ z); [assumption | | now apply digit_not_space].
  change (String c (s ++ e)) with (String c s ++ e).
  now rewrite last_char_app.
Qed.

Lemma string_app_assoc (s t u : string) : (s ++ t) ++ u = s ++ (t ++ u).
Proof. induction s as [|c s IH]; simpl; [reflexivity | now rewrite IH]. Qed.

Lemma digits_then (k1 k2 : nat) (m r : string) (rest : list item) :
  all_chars is_digit m = true -> (k1 <= length m <= k2)%nat ->
  test rest r = true -> test (digits k1 k2 :: rest) (m ++ r) = true.
Proof.
  intros Hm Hl Hr. apply test_cons_intro; assumption.
Qed.

Lemma char_then (c : ascii) (r : string) (rest : list item) :
  test rest r = true -> test (char c :: rest) (String c r) = true.
Proof.
  intros Hr. apply (test_cons_intro (char c) rest (String c "") r).
  - cbn [char cls all_chars]. now rewrite Ascii.eqb_refl.
  - cbn. lia.
  - exact Hr.
Qed.

Lemma digits_end (k1 k2 : nat) (m : string) :
  all_chars is_digit m = true -> (k1 <= length m <= k2)%nat ->
  test [digits k1 k2] m = true.
Proof.
  intros Hm Hl. rewrite <- (string_app_empty_r m).
  apply digits_then; [assumption | assumption | reflexivity].
Qed.

Lemma spaces_then (m r : string) (rest : list item) :
  all_chars is_white_space m = true -> (1 <= length m)%nat ->
  test rest r = true -> test (spaces :: rest) (m ++ r) = true.
Proof.
  intros Hm Hl Hr. apply test_cons_intro; try assumption.
  cbn [spaces lo bound hi]. rewrite string_length_app. lia.
Qed.

Lemma trim_three (sep : ascii) (m b e : string) :
  all_chars is_digit m = true -> (1 <= length m)%nat ->
  all_chars is_digit e = true -> (1 <= length e)%nat ->
  trim (m ++ String sep (b ++ String sep e))
  = m ++ String sep (b ++ String sep e).
Proof.
  intros Hm Lm He Le.
  destruct (is_digit_first m Hm Lm) as (c & r & -> & Hc). cbn [append].
  assert (r ++ String sep (b ++ String sep e)
          = (r ++ String sep (b ++ String sep "")) ++ e) as ->.
  { rewrite string_app_assoc. cbn [append].
    now rewrite string_app_assoc. }
  apply trim_fixed_ends; [now apply digit_not_space | assumption | lia].
Qed.

(** X13 (numeric shapes are accepted whatever the numbers).  A value made
    of one or two digits, a slash, one or two digits, a slash and four
    digits looks like a date, and so do the same parts joined by hyphens
    with the four digits last or first: no month or day is checked against
    the calendar. *)
Theorem looksLikeDate_numeric_shapes (a b y : string) :
  all_chars is_digit a = true -> (1 <= length a <= 2)%nat ->
  all_chars is_digit b = true -> (1 <= length b <= 2)%nat ->
  all_chars is_digit y = true -> length y = 4%nat ->
  looksLikeDate (a ++ "/" ++ b ++ "/" ++ y) = true
  /\ looksLikeDate (y ++ "-" ++ a ++ "-" ++ b) = true
  /\ looksLikeDate (a ++ "-" ++ b ++ "-" ++ y) = true.
Proof.
  intros Ha La Hb Lb Hy Ly.
  unfold looksLikeDate. cbn [datePatterns existsb].
  change (a ++ "/" ++ b ++ "/" ++ y)
    with (a ++ String "/" (b ++ String "/" y)).
  change (y ++ "-" ++ a ++ "-" ++ b)
    with (y ++ String "-" (a ++ String "-" b)).
  change (a ++ "-" ++ b ++ "-" ++ y)
    with (a ++ String "-" (b ++ String "-" y)).
  rewrite !trim_three by (assumption || lia).
  repeat split.
  - rewrite digits_then; [reflexivity | assumption | assumption |].
    apply char_then, digits_then; [assumption | assumption |].
    apply char_then, digits_end; [assumption | lia].
  - rewrite (digits_then 4 4); [apply orb_true_r | assumption | lia |].
    apply char_then, digits_then; [assumption | assumption |].
    apply char_then, digits_end; assumption.
  - rewrite (digits_then 1 2 a (String "-" _) [char "-"; _; _; digits 4 4]);
      [| assumption | assumption |].
    + rewrite orb_true_r. apply orb_true_r.
    + apply char_then, digits_then; [assumption | assumption |].
      apply char_then, digits_end; [assumption | lia].
Qed.

Lemma looksLikeDate_numeric_shapes_witness :
  all_chars is_digit "99" = true /\ (1 <= length "99" <= 2)%nat
  /\ all_chars is_digit "0" = true /\ (1 <= length "0" <= 2)%nat
  /\ all_chars is_digit "0000" = true /\ length "0000" = 4%nat
  /\ looksLikeDate ("99" ++ "/" ++ "0" ++ "/" ++ "0000") = true
  /\ looksLikeDate ("0000" ++ "-" ++ "99" ++ "-" ++ "0") = true
  /\ looksLikeDate ("99" ++ "-" ++ "0" ++ "-" ++ "0000") = true.
Proof.
  assert (all_chars is_digit "99" = true) as Ha by reflexivity.
  assert (1 <= length "99" <= 2)%nat as La by (simpl; lia).
  assert (all_chars is_digit "0" = true) as Hb by reflexivity.
  assert (1 <= length "0" <= 2)%nat as Lb by (simpl; lia).
  assert (all_chars is_digit "0000" = true) as Hy by reflexivity.
  assert (length "0000" = 4%nat) as Ly by reflexivity.
  repeat (split; [assumption|]).
  apply (looksLikeDate_numeric_shapes "99" "0" "0000" Ha La Hb Lb Hy Ly).
Defined.

(** X14 (a month name is any word).  Three to nine letters, white space,
    one or two digits, an optional comma, white space and four digits look
    like a date, whatever the letters spell. *)
Theorem looksLikeDate_month_shape (m w1 a w2 y : string) :
  all_chars is_letter m = true -> (3 <= length m <= 9)%nat ->
  all_chars is_white_space w1 = true -> (1 <= length w1)%nat ->
  all_chars is_digit a = true -> (1 <= length a <= 2)%nat ->
  all_chars is_white_space w2 = true -> (1 <= length w2)%nat ->
  all_chars is_digit y = true -> length y = 4%nat ->
  looksLikeDate (m ++ w1 ++ a ++ "," ++ w2 ++ y) = true
  /\ looksLikeDate (m ++ w1 ++ a ++ w2 ++ y) = true.
Proof.
  intros Hm Lm H1 L1 Ha La H2 L2 Hy Ly.
  assert (exists c r, m = String c r /\ is_letter c = true) as (c & r & Em & Hc).
  { destruct m as [|c r]; [simpl in Lm; lia|].
    cbn [all_chars] in Hm. apply andb_true_iff in Hm. destruct Hm as [Hc _].
    now exists c, r. }
  assert (forall t, trim (m ++ t ++ y) = m ++ t ++ y) as Htrim.
  { intros t. rewrite Em. cbn [append].
    rewrite <- string_app_assoc.
    apply trim_fixed_ends; [now apply letter_not_space | assumption | lia]. }
  assert (test [digits 4 4] y = true) as Hend
      by (apply digits_end; [assumption | lia]).
  unfold looksLikeDate. cbn [datePatterns existsb].
  split.
  - replace (m ++ w1 ++ a ++ "," ++ w2 ++ y)
      with (m ++ (w1 ++ a ++ "," ++ w2) ++ y)
      by (now rewrite !string_app_assoc).
    rewrite Htrim.
    replace (m ++ (w1 ++ a ++ "," ++ w2) ++ y)
      with (m ++ w1 ++ a ++ String "," "" ++ w2 ++ y)
      by (now rewrite !string_app_assoc).
    rewrite (test_cons_intro (letters 3 9)); [now rewrite !orb_true_r | assumption | assumption |].
    apply spaces_then; [assumption | assumption |].
    apply digits_then; [assumption | assumption |].
    apply (test_cons_intro (optional ",")); [reflexivity | cbn; lia |].
    now apply spaces_then.
  - replace (m ++ w1 ++ a ++ w2 ++ y)
      with (m ++ (w1 ++ a ++ w2) ++ y)
      by (now rewrite !string_app_assoc).
    rewrite Htrim.
    replace (m ++ (w1 ++ a ++ w2) ++ y)
      with (m ++ w1 ++ a ++ "" ++ w2 ++ y)
      by (now rewrite !string_app_assoc).
    rewrite (test_cons_intro (letters 3 9)); [now rewrite !orb_true_r | assumption | assumption |].
    apply spaces_then; [assumption | assumption |].
    apply digits_then; [assumption | assumption |].
    apply (test_cons_intro (optional ",")); [reflexivity | cbn; lia |].
    now apply spaces_then.
Qed.

Lemma looksLikeDate_month_shape_witness :
  looksLikeDate ("Smarch" ++ " " ++ "42" ++ "," ++ "  " ++ "2025") = true
  /\ looksLikeDate ("Smarch" ++ " " ++ "42" ++ "  " ++ "2025") = true.
Proof.
  apply (looksLikeDate_month_shape "Smarch" " " "42" "  " "2025");
    try reflexivity; simpl; lia.
Defined.

Ltac split_items H :=
  repeat (let m := fresh "m" in let r := fresh "r" in
          let Hc := fresh "Hc" in let Hl := fresh "Hl" in
          apply test_cons_elim in H;
          destruct H as (m & r & -> & Hc & Hl & H));
  apply test_nil in H; subst.

(** X15 (what never looks like a date).  A value that looks like a date
    has, once trimmed, at least 8 characters, a digit or a letter in front
    and a digit at the end. *)
Theorem looksLikeDate_necessary (s : string) :
  looksLikeDate s = true ->
  (8 <= length (trim s))%nat
  /\ (exists c r, trim s = String c r
                  /\ (is_digit c || is_letter c) = true)
  /\ (exists c, last_char (trim s) = Some c /\ is_digit c = true).
Proof.
  unfold looksLikeDate. cbn [datePatterns existsb].
  generalize (trim s). clear s. intros s H.
  rewrite !orb_true_iff in H.
  destruct H as [H | [H | [H | [H | H]]]]; [| | | |discriminate H].
  - split; [|split].
    + split_items H. rewrite !string_length_app.
      cbn [digits char lo] in *. lia.
    + apply test_cons_elim in H. destruct H as (m & r & -> & Hc & Hl & _).
      destruct (is_digit_first m Hc Hl) as (c & r' & -> & Hd).
      exists c, (r' ++ r). now rewrite Hd.
    + apply (test_last (digits 4 4)
               [digits 1 2; char "/"; digits 1 2; char "/"]);
        [cbn; lia | exact H].
  - split; [|split].
    + split_items H. rewrite !string_length_app.
      cbn [digits char lo] in *. lia.
    + apply test_cons_elim in H. destruct H as (m & r & -> & Hc & Hl & _).
      destruct (is_digit_first m Hc ltac:(cbn in Hl; lia))
        as (c & r' & -> & Hd).
      exists c, (r' ++ r). now rewrite Hd.
    + apply (test_last (digits 1 2)
               [digits 4 4; char "-"; digits 1 2; char "-"]);
        [cbn; lia | exact H].
  - split; [|split].
    + split_items H. rewrite !string_length_app.
      cbn [digits char lo] in *. lia.
    + apply test_cons_elim in H. destruct H as (m & r & -> & Hc & Hl & _).
      destruct (is_digit_first m Hc Hl) as (c & r' & -> & Hd).
      exists c, (r' ++ r). now rewrite Hd.
    + apply (test_last (digits 4 4)
               [digits 1 2; char "-"; digits 1 2; char "-"]);
        [cbn; lia | exact H].
  - split; [|split].
    + split_items H. rewrite !string_length_app.
      cbn [digits letters spaces optional lo] in *. lia.
    + apply test_cons_elim in H. destruct H as (m & r & -> & Hc & Hl & _).
      cbn [letters cls lo] in Hc, Hl.
      destruct m as [|c r']; [simpl in Hl; lia|].
      cbn [all_chars] in Hc. apply andb_true_iff in Hc.
      destruct Hc as [Hc _].
      exists c, (r' ++ r). rewrite Hc. now rewrite orb_true_r.
    + apply (test_last (digits 4 4)
               [letters 3 9; spaces; digits 1 2; optional ","; spaces]);
        [cbn; lia | exact H].
Qed.

Lemma looksLikeDate_necessary_witness :
  looksLikeDate " 8/22/2025 " = true
  /\ (8 <= length (trim " 8/22/2025 "))%nat
  /\ (exists c r, trim " 8/22/2025 " = String c r
                  /\ (is_digit c || is_letter c) = true)
  /\ (exists c, last_char (trim " 8/22/2025 ") = Some c
                /\ is_digit c = true).
Proof.
  assert (looksLikeDate " 8/22/2025 " = true) as H by reflexivity.
  split; [exact H|]. apply (looksLikeDate_necessary " 8/22/2025 " H).
Defined.

(** X16 (the first number is always the month).  When the engine cannot
    parse the trimmed value and the value has the shape of digits, slash,
    digits, slash, four digits, the date compared with today is the one
    with the first number as the month and the second as the day: the
    attempt to read it day first is never made, because the month-first
    date is always a valid date. *)
Theorem validateTodayFunction_month_first
        (YearFromTime MonthFromTime DateFromTime : Z -> Z) (now : Z)
        (toLocaleDateString : Date -> string) (Date_parse : string -> Date)
        (MakeLocalDate : Z -> Z -> Z -> Z)
        (value a s1 b s2 y : string) :
  Date_parse (trim value) = None ->
  Pattern.exec slash_pattern (trim value) = Some [a; s1; b; s2; y] ->
  trim value = a ++ "/" ++ b ++ "/" ++ y
  /\ all_chars is_digit (a ++ b ++ y) = true
  /\ isValid
       (validateTodayFunction YearFromTime MonthFromTime DateFromTime now
          toLocaleDateString Date_parse MakeLocalDate value)
     = isSameDate YearFromTime MonthFromTime DateFromTime
         (Some (MakeLocalDate (decimal_value y) (decimal_value a - 1)%Z
                              (decimal_value b)))
         (Some now).
Proof.
  intros Hparse Hexec.
  assert (trim value = a ++ "/" ++ b ++ "/" ++ y
          /\ (all_chars is_digit a = true /\ a <> "")
          /\ (all_chars is_digit b = true /\ b <> "")
          /\ (all_chars is_digit y = true /\ y <> ""))
    as (Eshape & [Ha Na] & [Hb Nb] & [Hy Ny]).
  { pose proof Hexec as H. unfold slash_pattern in H.
    apply exec_cons_elim in H.
    destruct H as (m1 & r1 & p1 & Ep & E1 & C1 & L1 & H).
    injection Ep as <- <-.
    apply exec_cons_elim in H.
    destruct H as (m2 & r2 & p2 & Ep & E2 & C2 & L2 & H).
    injection Ep as <- <-.
    apply exec_cons_elim in H.
    destruct H as (m3 & r3 & p3 & Ep & E3 & C3 & L3 & H).
    injection Ep as <- <-.
    apply exec_cons_elim in H.
    destruct H as (m4 & r4 & p4 & Ep & E4 & C4 & L4 & H).
    injection Ep as <- <-.
    apply exec_cons_elim in H.
    destruct H as (m5 & r5 & p5 & Ep & E5 & C5 & L5 & H).
    injection Ep as <- <-.
    cbn [exec] in H. destruct (String.eqb_spec r5 ""); [|discriminate H].
    subst r5. rewrite string_app_empty_r in E5. subst r4.
    cbn [digits char cls lo hi bound] in *.
    apply char_piece in C2; [|assumption].
    apply char_piece in C4; [|assumption].
    subst s1 s2 r3 r2 r1.
    split; [exact E1|].
    repeat split; try assumption;
      eapply digits_piece; [apply L1 | apply L3 | apply L5]. }
  split; [exact Eshape|]. split; [now rewrite !all_chars_app, Ha, Hb, Hy|].
  unfold validateTodayFunction. cbv zeta.
  rewrite Hparse. cbn [isNaN_time].
  unfold groups. rewrite Hexec.
  rewrite !parseInt10_digits by assumption.
  cbn [minus_one num_add Date_of_fields isNaN_time isValid].
  reflexivity.
Qed.

Lemma validateTodayFunction_month_first_witness :
  trim "22/8/2025" = "22" ++ "/" ++ "8" ++ "/" ++ "2025"
  /\ all_chars is_digit ("22" ++ "8" ++ "2025") = true
  /\ isValid
       (validateTodayFunction (fun t => t) (fun t => t) (fun t => t) 0%Z
          (fun _ => "today") (fun _ => None)
          (fun y m d => (y * 10000 + m * 100 + d)%Z) "22/8/2025")
     = isSameDate (fun t => t) (fun t => t) (fun t => t)
         (Some ((fun y m d => (y * 10000 + m * 100 + d)%Z)
                  (decimal_value "2025") (decimal_value "22" - 1)%Z
                  (decimal_value "8")))
         (Some 0%Z).
Proof.
  apply (validateTodayFunction_month_first
           (fun t => t) (fun t => t) (fun t => t) 0%Z
           (fun _ => "today") (fun _ => None)
           (fun y m d => (y * 10000 + m * 100 + d)%Z)
           "22/8/2025" "22" "/" "8" "/" "2025");
    reflexivity.
Defined.

(** X17 (same day is a partial equivalence).  [isSameDate] is symmetric and
    transitive, but a date is the same day as itself only when it is a
    valid date: with an invalid date on either side the answer is
    [false]. *)
Theorem isSameDate_partial_equivalence
        (YearFromTime MonthFromTime DateFromTime : Z -> Z) :
  let same := isSameDate YearFromTime MonthFromTime DateFromTime in
  (forall d1 d2, same d1 d2 = same d2 d1)
  /\ (forall d1 d2 d3,
        same d1 d2 = true -> same d2 d3 = true -> same d1 d3 = true)
  /\ (forall d, same d d = true <-> d <> None)
  /\ (forall d, same None d = false /\ same d None = false).
Proof.
  cbv zeta. unfold isSameDate, getFullYear, getMonth, getDate, strict_equal.
  repeat split.
  - intros [t1|] [t2|]; try reflexivity.
    now rewrite (Z.eqb_sym (YearFromTime t1)),
      (Z.eqb_sym (MonthFromTime t1)), (Z.eqb_sym (DateFromTime t1)).
  - intros [t1|] [t2|] [t3|]; try discriminate.
    rewrite !andb_true_iff, !Z.eqb_eq.
    intros [[-> ->] ->] [[-> ->] ->]. auto.
  - intros H ->. discriminate H.
  - intros H. destruct d as [t|]; [|congruence].
    now rewrite !Z.eqb_refl.
  - now destruct d.
Qed.

Lemma isSameDate_partial_equivalence_witness :
  isSameDate (fun t => t) (fun t => t) (fun t => t) (Some 5%Z) (Some 5%Z)
  = true
  /\ isSameDate (fun t => t) (fun t => t) (fun t => t) None None = false.
Proof.
  destruct (isSameDate_partial_equivalence
              (fun t => t) (fun t => t) (fun t => t))
    as (_ & Htrans & _ & Hinvalid).
  split.
  - apply (Htrans (Some 5%Z) (Some 5%Z) (Some 5%Z)); reflexivity.
  - apply (Hinvalid None).
Defined.

End DateUtilsFacts.

(** * [ConfigLoader] *)

Module ConfigLoaderFacts.
Import ConfigLoader.

Lemma truthy_string_iff (o : option string) :
  truthy_string o = true <-> exists s, o = Some s /\ s <> "".
Proof.
  destruct o as [s|]; cbn [truthy_string].
  - rewrite negb_true_iff, String.eqb_neq. split.
    + intros H. now exists s.
    + now intros (s' & [= <-] & H).
  - split; [discriminate | now intros (s & E & _)].
Qed.

Lemma push_if_length (c : bool) (m : string) (l : list string) :
  List.length (push_if c m l)
  = (List.length l + if c then 1 else 0)%nat.
Proof.
  destruct c; cbn [push_if]; [|lia].
  rewrite length_app. reflexivity.
Qed.

(** X19 (validation ignores what three overrides change).  Assigning
    [headless], [slowMo] or the test timeout from an environment variable
    does not change what [validateConfig] answers: a [SLOW_MO] or a
    [TEST_TIMEOUT] that is no number is stored as [NaN] and passes. *)
Theorem validation_ignores_overrides (v : string)
        (config config' : TestConfiguration) :
  set_headless v config = inr config'
  \/ set_slowMo v config = inr config'
  \/ set_test_timeout v config = inr config' ->
  validateConfig config' = validateConfig config.
Proof.
  unfold set_headless, set_slowMo, set_test_timeout.
  intros [H | [H | H]].
  - destruct (browser config) as [br|] eqn:Eb; [|discriminate H].
    injection H as <-. unfold validateConfig, validation_errors.
    cbn [excel browser chain viewport]. now rewrite Eb.
  - destruct (browser config) as [br|] eqn:Eb; [|discriminate H].
    injection H as <-. unfold validateConfig, validation_errors.
    cbn [excel browser chain viewport]. now rewrite Eb.
  - destruct (excel config) as [ex|] eqn:Ee; [|discriminate H].
    destruct (timeouts ex) as [tm|] eqn:Et; [|discriminate H].
    injection H as <-. unfold validateConfig, validation_errors.
    rewrite Ee.
    cbn [excel browser chain credentials baseUrl timeouts navigation].
    rewrite Et. reflexivity.
Qed.

Lemma validation_ignores_overrides_witness :
  set_slowMo "fast" {| excel := None;
                       browser := Some {| headless := None;
                                          viewport := None;
                                          slowMo := Some (Int 100) |} |}
  = inr {| excel := None;
           browser := Some {| headless := None; viewport := None;
                              slowMo := Some NaN |} |}
  /\ validateConfig
       {| excel := None;
          browser := Some {| headless := None; viewport := None;
                             slowMo := Some NaN |} |}
     = validateConfig
         {| excel := None;
            browser := Some {| headless := None; viewport := None;
                               slowMo := Some (Int 100) |} |}.
Proof.
  assert (set_slowMo "fast"
            {| excel := None;
               browser := Some {| headless := None; viewport := None;
                                  slowMo := Some (Int 100) |} |}
          = inr {| excel := None;
                   browser := Some {| headless := None; viewport := None;
                                      slowMo := Some NaN |} |}) as H
      by reflexivity.
  split; [exact H|].
  apply (validation_ignores_overrides "fast" _ _ (or_intror (or_introl H))).
Defined.

Lemma override_unset (env : environment) (name : string) assign c :
  truthy_string (env name) = false -> override env name assign c = c.
Proof.
  unfold override, truthy_string. destruct c as [e|c]; [reflexivity|].
  destruct (env name) as [v|]; [|reflexivity].
  rewrite negb_false_iff. now intros ->.
Qed.

(** X20 (variables that are unset or empty change nothing).  When none of
    the five environment variables holds a non-empty string,
    [applyEnvironmentOverrides] returns the configuration as it is and
    throws nothing, whatever sections the configuration lacks. *)
Theorem overrides_without_variables (env : environment)
        (config : TestConfiguration) :
  (forall name,
      In name ["EXCEL_USERNAME"; "EXCEL_PASSWORD"; "HEADLESS"; "SLOW_MO";
               "TEST_TIMEOUT"] ->
      truthy_string (env name) = false) ->
  applyEnvironmentOverrides env config = inr config.
Proof.
  intros H. unfold applyEnvironmentOverrides. cbv zeta.
  rewrite !override_unset; [reflexivity | | | | |];
    apply H; cbn [In]; tauto.
Qed.

Lemma overrides_without_variables_witness :
  applyEnvironmentOverrides
    (fun name => if name =? "HEADLESS" then Some "" else None)
    {| excel := None; browser := None |}
  = inr {| excel := None; browser := None |}.
Proof.
  apply (overrides_without_variables
           (fun name => if name =? "HEADLESS" then Some "" else None)).
  intros name Hin. cbn [In] in Hin.
  destruct Hin as [<- | [<- | [<- | [<- | [<- | []]]]]]; reflexivity.
Defined.

(** X21 (an override needs its section).  When [EXCEL_USERNAME] holds a
    non-empty string and the configuration has no [excel] section, or its
    [excel] section has no [credentials], [applyEnvironmentOverrides]
    throws a [TypeError]; [loadConfig] then fails before validation can
    report the missing field, and nothing is cached. *)
Theorem override_needs_section (w : world) (path v : string)
        (fileConfig : TestConfiguration) :
  findConfigFile w = inr path ->
  read_and_parse w path = inr fileConfig ->
  env w "EXCEL_USERNAME" = Some v -> v <> "" ->
  chain (excel fileConfig) credentials = None ->
  exists property,
    applyEnvironmentOverrides (env w) fileConfig
    = inl (TypeError property)
    /\ loadConfig w None
       = (inl (loading_failed w (TypeError property)), None).
Proof.
  intros Hfind Hread Hv Hne Hmissing.
  assert (exists property,
             applyEnvironmentOverrides (env w) fileConfig
             = inl (TypeError property)) as [property Happly].
  { unfold applyEnvironmentOverrides. cbv zeta.
    unfold override at 5. rewrite Hv.
    apply String.eqb_neq in Hne. rewrite Hne. unfold set_username.
    destruct (excel fileConfig) as [ex|].
    - cbn [chain] in Hmissing. rewrite Hmissing.
      exists "username". reflexivity.
    - exists "credentials". reflexivity. }
  exists property. split; [exact Happly|].
  unfold loadConfig, loadConfigFromFile.
  now rewrite Hfind, Hread, Happly.
Qed.

(** A world with a configuration file that holds [{}]. *)
Lemma override_needs_section_witness :
  exists property,
    applyEnvironmentOverrides
      (fun name => if name =? "EXCEL_USERNAME" then Some "me" else None)
      {| excel := None; browser := None |}
    = inl (TypeError property)
    /\ loadConfig
         {| configFile := "config/test-config.json";
            templateFile := "config/test-config.template.json";
            existsSync := fun _ => true;
            read_and_parse :=
              fun _ => inr {| excel := None; browser := None |};
            env := fun name =>
                     if name =? "EXCEL_USERNAME" then Some "me" else None;
            type_error_text := fun p => p |}
         None
       = (inl (loading_failed
                 {| configFile := "config/test-config.json";
                    templateFile := "config/test-config.template.json";
                    existsSync := fun _ => true;
                    read_and_parse :=
                      fun _ => inr {| excel := None; browser := None |};
                    env := fun name =>
                             if name =? "EXCEL_USERNAME" then Some "me"
                             else None;
                    type_error_text := fun p => p |}
                 (TypeError property)),
          None).
Proof.
  apply (override_needs_section
           {| configFile := "config/test-config.json";
              templateFile := "config/test-config.template.json";
              existsSync := fun _ => true;
              read_and_parse :=
                fun _ => inr {| excel := None; browser := None |};
              env := fun name =>
                       if name =? "EXCEL_USERNAME" then Some "me" else None;
              type_error_text := fun p => p |}
           "config/test-config.json" "me"
           {| excel := None; browser := None |});
    try reflexivity. discriminate.
Defined.

(** X22 (a loaded configuration is kept).  After [loadConfig] has returned
    a configuration, every later call returns the same configuration
    without looking at the files or the environment again. *)
Theorem loadConfig_caches (w : world) (config : TestConfiguration)
        (cached : option TestConfiguration) :
  loadConfig w None = (inr config, cached) ->
  forall w', loadConfig w' cached = (inr config, cached).
Proof.
  unfold loadConfig. intros H w'.
  destruct (findConfigFile w) as [e|path]; [discriminate H|].
  destruct (loadConfigFromFile w path) as [e|fileConfig]; [discriminate H|].
  destruct (applyEnvironmentOverrides (env w) fileConfig) as [e|c];
    [discriminate H|].
  destruct (validateConfig c) as [e|warned]; [discriminate H|].
  now injection H as <- <-.
Qed.

Lemma loadConfig_caches_witness :
  let c := {| excel :=
                Some {| baseUrl := Some "https://www.office.com/launch/excel";
                        credentials :=
                          Some {| username := Some "user@outlook.com";
                                  password := Some "secret" |};
                        timeouts := None |};
              browser :=
                Some {| headless := Some false;
                        viewport :=
                          Some {| width := Some (Int 1280);
                                  height := Some (Int 720) |};
                        slowMo := None |} |} in
  let w := {| configFile := "config/test-config.json";
              templateFile := "config/test-config.template.json";
              existsSync := fun _ => true;
              read_and_parse := fun _ => inr c;
              env := fun _ => None;
              type_error_text := fun p => p |} in
  let w' := {| configFile := "config/test-config.json";
               templateFile := "config/test-config.template.json";
               existsSync := fun _ => false;
               read_and_parse := fun _ => inl (Error "ENOENT");
               env := fun _ => Some "other";
               type_error_text := fun p => p |} in
  loadConfig w None = (inr c, Some c)
  /\ loadConfig w' (Some c) = (inr c, Some c).
Proof.
  intros c w w'.
  assert (loadConfig w None = (inr c, Some c)) as H by reflexivity.
  split; [exact H|]. apply (loadConfig_caches w c (Some c) H w').
Defined.

(** X23 (a rejected configuration is kept too).  When the file is read and
    the overrides are applied but validation fails, [loadConfig] throws and
    yet stores the configuration; the next call returns that configuration
    without validating it. *)
Theorem loadConfig_keeps_rejected (w : world) (path : string)
        (fileConfig config : TestConfiguration) (e : error) :
  findConfigFile w = inr path ->
  read_and_parse w path = inr fileConfig ->
  applyEnvironmentOverrides (env w) fileConfig = inr config ->
  validateConfig config = inl e ->
  loadConfig w None = (inl (loading_failed w e), Some config)
  /\ forall w', loadConfig w' (Some config) = (inr config, Some config).
Proof.
  intros Hfind Hread Happly Hval. split; [|reflexivity].
  unfold loadConfig, loadConfigFromFile.
  now rewrite Hfind, Hread, Happly, Hval.
Qed.

Lemma loadConfig_keeps_rejected_witness :
  let w := {| configFile := "config/test-config.json";
              templateFile := "config/test-config.template.json";
              existsSync := fun _ => true;
              read_and_parse :=
                fun _ => inr {| excel := None; browser := None |};
              env := fun _ => None;
              type_error_text := fun p => p |} in
  (exists e,
      validateConfig {| excel := None; browser := None |} = inl e
      /\ loadConfig w None
         = (inl (loading_failed w e),
            Some {| excel := None; browser := None |}))
  /\ loadConfig w (Some {| excel := None; browser := None |})
     = (inr {| excel := None; browser := None |},
        Some {| excel := None; browser := None |}).
Proof.
  intros w.
  destruct (validateConfig {| excel := None; browser := None |})
    as [e|warned] eqn:Hval; [|discriminate Hval].
  destruct (loadConfig_keeps_rejected w "config/test-config.json"
              {| excel := None; browser := None |}
              {| excel := None; browser := None |} e
              eq_refl eq_refl eq_refl Hval) as [H1 H2].
  split; [exists e; split; [reflexivity | exact H1] | apply H2].
Defined.

(** X24 (failures before the assignment leave nothing behind).  When no
    file is found, when the file cannot be read or parsed, or when an
    override throws, [loadConfig] throws an error whose message starts with
    "Configuration loading failed: " and the loader stays empty, so the
    next call starts over.  With neither file the message is the fixed text
    about [config/test-config.json]; when reading or parsing throws an
    error object, such as the [SyntaxError] of [JSON.parse], the message
    carries the path of the file, then the name and the message of that
    error. *)
Theorem loadConfig_failure_before_assignment (w : world) :
  (forall e, findConfigFile w = inl e ->
     loadConfig w None = (inl (loading_failed w e), None))
  /\ (forall path e,
        findConfigFile w = inr path -> read_and_parse w path = inl e ->
        loadConfig w None
        = (inl (loading_failed w
                  (Error ("Failed to parse configuration file " ++ path
                          ++ ": " ++ error_string w e))),
           None))
  /\ (forall path fileConfig e,
        findConfigFile w = inr path ->
        read_and_parse w path = inr fileConfig ->
        applyEnvironmentOverrides (env w) fileConfig = inl e ->
        loadConfig w None = (inl (loading_failed w e), None))
  /\ (existsSync w (configFile w) = false ->
      existsSync w (templateFile w) = false ->
      loadConfig w None
      = (inl (Error "Configuration loading failed: Error: No configuration file found. Please create config/test-config.json"),
         None))
  /\ (forall path name message,
        findConfigFile w = inr path ->
        read_and_parse w path = inl (Thrown name message) ->
        name <> "" -> message <> "" ->
        loadConfig w None
        = (inl (Error ("Configuration loading failed: "
                       ++ "Error: Failed to parse configuration file "
                       ++ path ++ ": " ++ name ++ ": " ++ message)),
           None))
  /\ (forall e, exists message,
        loading_failed w e
        = Error ("Configuration loading failed: " ++ message)).
Proof.
  unfold loadConfig, loadConfigFromFile.
  split; [|split; [|split; [|split; [|split]]]].
  - intros e ->. reflexivity.
  - intros path e -> ->. reflexivity.
  - intros path fileConfig e -> -> ->. reflexivity.
  - intros H1 H2. unfold findConfigFile. now rewrite H1, H2.
  - intros path name message -> -> Hname Hmessage.
    unfold loading_failed. cbn [error_string].
    apply String.eqb_neq in Hname, Hmessage.
    rewrite Hname, Hmessage. reflexivity.
  - intros e. now exists (error_string w e).
Qed.

(** A file that [JSON.parse] rejects. *)
Lemma loadConfig_failure_before_assignment_witness :
  loadConfig
    {| configFile := "config/test-config.json";
       templateFile := "config/test-config.template.json";
       existsSync := fun _ => true;
       read_and_parse :=
         fun _ => inl (Thrown "SyntaxError" "Unexpected end of JSON input");
       env := fun _ => None;
       type_error_text := fun p => p |}
    None
  = (inl (Error "Configuration loading failed: Error: Failed to parse configuration file config/test-config.json: SyntaxError: Unexpected end of JSON input"),
     None).
Proof.
  apply (proj1 (proj2 (proj2 (proj2 (proj2
           (loadConfig_failure_before_assignment
              {| configFile := "config/test-config.json";
                 templateFile := "config/test-config.template.json";
                 existsSync := fun _ => true;
                 read_and_parse :=
                   fun _ => inl (Thrown "SyntaxError"
                                        "Unexpected end of JSON input");
                 env := fun _ => None;
                 type_error_text := fun p => p |})))))
           "config/test-config.json" "SyntaxError"
           "Unexpected end of JSON input");
    try reflexivity; discriminate.
Defined.

(** X25 (any non-empty value means CI).  [isCI] answers [true] exactly when
    one of [CI], [GITHUB_ACTIONS] and [JENKINS_URL] holds a non-empty
    string, whatever the string says: [CI=false] counts as CI. *)
Theorem isCI_any_value (env : environment) :
  isCI env = true
  <-> exists name s,
        In name ["CI"; "GITHUB_ACTIONS"; "JENKINS_URL"]
        /\ env name = Some s /\ s <> "".
Proof.
  unfold isCI. rewrite !orb_true_iff, !truthy_string_iff. split.
  - intros [[(s & E & H) | (s & E & H)] | (s & E & H)];
      [exists "CI" | exists "GITHUB_ACTIONS" | exists "JENKINS_URL"];
      exists s; cbn [In]; tauto.
  - intros (name & s & Hin & E & H). cbn [In] in Hin.
    destruct Hin as [<- | [<- | [<- | []]]]; eauto.
Qed.

Lemma isCI_any_value_witness :
  isCI (fun name => if name =? "CI" then Some "false" else None) = true.
Proof.
  apply (proj2 (isCI_any_value _)).
  exists "CI", "false". cbn [In]. repeat split; auto. discriminate.
Defined.

End ConfigLoaderFacts.

(** * [ConfigLoader.validateConfig] on any parsed value *)

Module ConfigJsonFacts.
Import ConfigLoader ConfigJson.

(** A value that is there and is none of [null], [false], [0], [NaN] and
    the empty string. *)
Definition present (v : value) : Prop :=
  exists x,
    v = Some x /\ x <> JNull /\ x <> JBool false /\ x <> JString ""
    /\ forall n, x = JNumber n ->
         n <> Num.NotANumber
         /\ forall q, n = Num.Finite q -> ~ Qeq q (inject_Z 0).

Lemma num_truthy_iff (n : Num.num) :
  Num.truthy n = true
  <-> n <> Num.NotANumber
      /\ forall q, n = Num.Finite q -> ~ Qeq q (inject_Z 0).
Proof.
  destruct n as [q | negative | ]; cbn [Num.truthy].
  - rewrite negb_true_iff. split.
    + intros H. split; [discriminate|]. intros q' [= <-] Hq.
      apply Qeq_bool_iff in Hq. congruence.
    + intros [_ H].
      destruct (Qeq_bool q (inject_Z 0)) eqn:E; [|reflexivity].
      apply Qeq_bool_iff in E. now apply H in E.
  - split; [|reflexivity]. intros _. split; discriminate.
  - split; [discriminate|]. now intros [H _].
Qed.

Lemma truthy_present (v : value) : truthy v = true <-> present v.
Proof.
  unfold present. destruct v as [[ | b | n | s | items | properties]|];
    cbn [truthy].
  - split; [discriminate|]. now intros (x & [= <-] & H & _).
  - destruct b.
    + split; [|reflexivity]. intros _. exists (JBool true).
      split; [reflexivity|]. split; [discriminate|].
      split; [discriminate|]. split; discriminate.
    + split; [discriminate|]. now intros (x & [= <-] & _ & H & _).
  - rewrite num_truthy_iff. split.
    + intros H. exists (JNumber n).
      split; [reflexivity|]. split; [discriminate|].
      split; [discriminate|]. split; [discriminate|].
      intros n' [= <-]. exact H.
    + intros (x & [= <-] & _ & _ & _ & H). now apply H.
  - rewrite negb_true_iff, String.eqb_neq. split.
    + intros H. exists (JString s).
      split; [reflexivity|]. split; [discriminate|].
      split; [discriminate|]. split; [congruence | discriminate].
    + intros (x & [= <-] & _ & _ & H & _) ->. now apply H.
  - split; [|reflexivity]. intros _. exists (JArray items).
      split; [reflexivity|]. split; [discriminate|].
      split; [discriminate|]. split; discriminate.
  - split; [|reflexivity]. intros _. exists (JObject properties).
      split; [reflexivity|]. split; [discriminate|].
      split; [discriminate|]. split; discriminate.
  - split; [discriminate|]. now intros (x & E & _).
Qed.

Lemma member_optional (v : value) (name : string) :
  optional v name <> None -> member v name = inr (optional v name).
Proof.
  destruct v as [[ | b | n | s | items | properties]|];
    cbn [optional member]; try reflexivity; now intros H.
Qed.

Lemma truthy_not_undefined (v : value) : truthy v = true -> v <> None.
Proof. now destruct v. Qed.

Lemma optional_not_undefined (v : value) (name : string) :
  optional v name <> None -> v <> None.
Proof. now destruct v. Qed.

(** The non-optional accesses of the navigation rule never throw. *)
Lemma navigation_too_short_value (to_number : json -> Num.num)
      (config : json) :
  navigation_too_short to_number config
  = inr (truthy (optional (optional (property config "excel") "timeouts")
                          "navigation")
         && below_1000 to_number
              (optional (optional (property config "excel") "timeouts")
                        "navigation")).
Proof.
  unfold navigation_too_short.
  destruct (truthy (optional (optional (property config "excel") "timeouts")
                             "navigation")) eqn:E; [|reflexivity].
  apply truthy_not_undefined in E.
  rewrite (member_optional (property config "excel") "timeouts")
    by (now apply optional_not_undefined in E).
  now rewrite (member_optional _ "navigation") by exact E.
Qed.

Lemma call_includes_returns (username : value) :
  truthy username = true ->
  ((exists warned, call_includes username = inr warned)
   <-> (exists s, username = Some (JString s) /\ s <> "")
       \/ (exists items, username = Some (JArray items))).
Proof.
  destruct username as [[ | b | n | s | items | properties]|];
    cbn [truthy call_includes]; intros Ht; try discriminate Ht.
  - split; [now intros [warned H]|].
    now intros [(s & H & _) | (items & H)].
  - split; [now intros [warned H]|].
    now intros [(s & H & _) | (items & H)].
  - apply negb_true_iff, String.eqb_neq in Ht. split; [|eauto].
    intros _. left. now exists s.
  - split; [|eauto]. intros _. right. now exists items.
  - split; [now intros [warned H]|].
    now intros [(s & H & _) | (items & H)].
Qed.

Lemma path3 (config : json) (a b c : string) :
  config <> JNull ->
  at_path config [a; b; c]
  = optional (optional (property config a) b) c.
Proof. intros H. now destruct config. Qed.

Lemma path2 (config : json) (a b : string) :
  config <> JNull ->
  at_path config [a; b] = optional (property config a) b.
Proof. intros H. now destruct config. Qed.

Lemma json_is_null (config : json) : config = JNull \/ config <> JNull.
Proof. destruct config; auto; right; discriminate. Qed.

(** [validateConfig] on a value other than [null], its accesses for the
    navigation rule resolved. *)
Lemma validateConfig_value (to_number : json -> Num.num) (config : json) :
  config <> JNull ->
  let excel := property config "excel" in
  let navigation := optional (optional excel "timeouts") "navigation" in
  validateConfig to_number config
  = let errors :=
      push_if (truthy navigation && below_1000 to_number navigation)
              "Navigation timeout must be at least 1000ms"
              (required_errors config) in
    if (0 <? List.length errors)%nat then
      inl (Error ("Configuration validation failed:" ++ newline
                  ++ join_lines errors))
    else
      match member excel "credentials" with
      | inl e => inl e
      | inr credentials =>
          match member credentials "username" with
          | inl e => inl e
          | inr username => call_includes username
          end
      end.
Proof.
  intros Hconfig excel navigation. unfold validateConfig.
  rewrite navigation_too_short_value. now destruct config.
Qed.

Lemma validateConfig_returns (to_number : json -> Num.num)
      (config : json) :
  config <> JNull ->
  let excel := property config "excel" in
  let browser := property config "browser" in
  let username := optional (optional excel "credentials") "username" in
  let navigation := optional (optional excel "timeouts") "navigation" in
  (exists warned, validateConfig to_number config = inr warned)
  <-> ((exists s, username = Some (JString s) /\ s <> "")
       \/ (exists items, username = Some (JArray items)))
      /\ truthy (optional (optional excel "credentials") "password") = true
      /\ truthy (optional excel "baseUrl") = true
      /\ truthy (optional (optional browser "viewport") "width") = true
      /\ truthy (optional (optional browser "viewport") "height") = true
      /\ truthy navigation && below_1000 to_number navigation = false.
Proof.
  intros Hconfig excel browser username navigation.
  rewrite (validateConfig_value to_number config Hconfig).
  cbv zeta. unfold required_errors. cbv zeta.
  rewrite !ConfigLoaderFacts.push_if_length. cbn [List.length].
  fold excel browser. fold username navigation.
  destruct (truthy username) eqn:Hu.
  - pose proof (truthy_not_undefined _ Hu) as Hu'.
    unfold username in Hu'.
    rewrite (member_optional excel "credentials")
      by (now apply optional_not_undefined in Hu').
    rewrite (member_optional _ "username") by exact Hu'.
    fold username. pose proof (call_includes_returns username Hu) as Hc.
    destruct (truthy (optional (optional excel "credentials") "password"));
      destruct (truthy (optional excel "baseUrl"));
      destruct (truthy (optional (optional browser "viewport") "width"));
      destruct (truthy (optional (optional browser "viewport") "height"));
      destruct (truthy navigation && below_1000 to_number navigation);
      cbn [negb orb Nat.add Nat.ltb Nat.leb];
      try (split; [now intros [warned H] | intros H; decompose [and] H;
                                          discriminate]).
    rewrite Hc. tauto.
  - split.
    + intros [warned H]. exfalso.
      destruct (truthy (optional (optional excel "credentials") "password"));
        destruct (truthy (optional excel "baseUrl"));
        destruct (truthy (optional (optional browser "viewport") "width"));
        destruct (truthy (optional (optional browser "viewport") "height"));
        destruct (truthy navigation && below_1000 to_number navigation);
        discriminate H.
    + intros ([(s & E & Hs) | (items & E)] & _); rewrite E in Hu;
        cbn [truthy] in Hu; [|discriminate Hu].
      apply negb_false_iff, String.eqb_eq in Hu. contradiction.
Qed.

Lemma navigation_number (to_number : json -> Num.num) (q : Q) :
  Num.ltb (number_of to_number (Some (JNumber (Num.Finite q))))
          (Num.of_Z 1000) = false
  <-> Qle (inject_Z 1000) q.
Proof.
  cbn [number_of]. unfold Num.ltb. cbn [Num.leb Num.of_Z].
  rewrite andb_false_iff, negb_false_iff, Qle_bool_iff. split.
  - intros [H | H]; [|exact H].
    apply Qlt_le_weak, Qnot_le_lt. intros Hle.
    apply Qle_bool_iff in Hle. congruence.
  - auto.
Qed.



(** ** The typed model is [validateConfig] on the files that follow the
    interface *)

Lemma lookup_fields {A : Type} (name : string) (o : option A)
      (to_json : A -> json) (rest : list (string * json)) :
  lookup name (fields name o to_json ++ rest)
  = match o with
    | Some a => Some (to_json a)
    | None => lookup name rest
    end.
Proof.
  destruct o; cbn [fields app lookup]; [|reflexivity].
  now rewrite String.eqb_refl.
Qed.

Lemma lookup_skip {A : Type} (name name' : string) (o : option A)
      (to_json : A -> json) (rest : list (string * json)) :
  (name' =? name) = false ->
  lookup name (fields name' o to_json ++ rest) = lookup name rest.
Proof.
  intros H. destruct o; cbn [fields app lookup]; [|reflexivity].
  now rewrite H.
Qed.

Lemma lookup_last {A : Type} (name : string) (o : option A)
      (to_json : A -> json) :
  lookup name (fields name o to_json) = option_map to_json o.
Proof.
  destruct o; cbn [fields lookup option_map]; [|reflexivity].
  now rewrite String.eqb_refl.
Qed.

Lemma lookup_miss {A : Type} (name name' : string) (o : option A)
      (to_json : A -> json) :
  (name' =? name) = false -> lookup name (fields name' o to_json) = None.
Proof.
  intros H. destruct o; cbn [fields lookup]; [|reflexivity].
  now rewrite H.
Qed.

Ltac absent_field :=
  rewrite ?lookup_skip by reflexivity; now rewrite lookup_miss by reflexivity.

Lemma excel_of (c : TestConfiguration) :
  property (of_configuration c) "excel" = option_map of_excel (excel c).
Proof.
  cbn [property of_configuration]. rewrite lookup_fields.
  destruct (excel c); [reflexivity|]. absent_field.
Qed.

Lemma browser_of (c : TestConfiguration) :
  property (of_configuration c) "browser"
  = option_map of_browser (browser c).
Proof.
  cbn [property of_configuration].
  rewrite lookup_skip by reflexivity. apply lookup_last.
Qed.

Lemma baseUrl_of (e : option ExcelConfig) :
  optional (option_map of_excel e) "baseUrl"
  = option_map JString (chain e baseUrl).
Proof.
  destruct e as [ex|]; [|reflexivity].
  cbn [option_map optional of_excel property chain].
  rewrite lookup_fields. destruct (baseUrl ex); [reflexivity|].
  absent_field.
Qed.

Lemma credentials_of (e : option ExcelConfig) :
  optional (option_map of_excel e) "credentials"
  = option_map of_credentials (chain e credentials).
Proof.
  destruct e as [ex|]; [|reflexivity].
  cbn [option_map optional of_excel property chain].
  rewrite lookup_skip by reflexivity. rewrite lookup_fields.
  destruct (credentials ex); [reflexivity|]. absent_field.
Qed.

Lemma timeouts_of (e : option ExcelConfig) :
  optional (option_map of_excel e) "timeouts"
  = option_map of_timeouts (chain e timeouts).
Proof.
  destruct e as [ex|]; [|reflexivity].
  cbn [option_map optional of_excel property chain].
  rewrite !lookup_skip by reflexivity. apply lookup_last.
Qed.

Lemma username_of (c : option LoginCredentials) :
  optional (option_map of_credentials c) "username"
  = option_map JString (chain c username).
Proof.
  destruct c as [cr|]; [|reflexivity].
  cbn [option_map optional of_credentials property chain].
  rewrite lookup_fields. destruct (username cr); [reflexivity|].
  absent_field.
Qed.

Lemma password_of (c : option LoginCredentials) :
  optional (option_map of_credentials c) "password"
  = option_map JString (chain c password).
Proof.
  destruct c as [cr|]; [|reflexivity].
  cbn [option_map optional of_credentials property chain].
  rewrite lookup_skip by reflexivity. apply lookup_last.
Qed.

Lemma navigation_of (t : option Timeouts) :
  optional (option_map of_timeouts t) "navigation"
  = option_map of_number (chain t navigation).
Proof.
  destruct t as [tm|]; [|reflexivity].
  cbn [option_map optional of_timeouts property chain].
  rewrite lookup_fields. destruct (navigation tm); [reflexivity|].
  absent_field.
Qed.

Lemma viewport_of (b : option BrowserConfig) :
  optional (option_map of_browser b) "viewport"
  = option_map of_viewport (chain b viewport).
Proof.
  destruct b as [br|]; [|reflexivity].
  cbn [option_map optional of_browser property chain].
  rewrite lookup_skip by reflexivity. rewrite lookup_fields.
  destruct (viewport br); [reflexivity|]. absent_field.
Qed.

Lemma width_of (v : option Viewport) :
  optional (option_map of_viewport v) "width"
  = option_map of_number (chain v width).
Proof.
  destruct v as [vp|]; [|reflexivity].
  cbn [option_map optional of_viewport property chain].
  rewrite lookup_fields. destruct (width vp); [reflexivity|].
  absent_field.
Qed.

Lemma height_of (v : option Viewport) :
  optional (option_map of_viewport v) "height"
  = option_map of_number (chain v height).
Proof.
  destruct v as [vp|]; [|reflexivity].
  cbn [option_map optional of_viewport property chain].
  rewrite lookup_skip by reflexivity. apply lookup_last.
Qed.

Lemma truthy_of_string (o : option string) :
  truthy (option_map JString o) = truthy_string o.
Proof. now destruct o. Qed.

Lemma truthy_of_number (o : option number) :
  truthy (option_map of_number o) = truthy_number o.
Proof.
  destruct o as [[|z]|]; try reflexivity.
  cbn [option_map of_number truthy truthy_number Num.truthy Num.of_Z].
  unfold Qeq_bool. cbn [Qnum Qden inject_Z].
  now rewrite Z.mul_1_r.
Qed.

Lemma below_1000_of_number (to_number : json -> Num.num)
      (o : option number) :
  ConfigJson.below_1000 to_number (option_map of_number o)
  = ConfigLoader.below_1000 o.
Proof.
  destruct o as [[|z]|]; try reflexivity.
  cbn [option_map of_number ConfigLoader.below_1000].
  unfold ConfigJson.below_1000. cbn [number_of]. unfold Num.ltb.
  rewrite !NumFacts.leb_of_Z.
  destruct (Z.leb_spec z 1000), (Z.leb_spec 1000 z), (Z.ltb_spec z 1000);
    cbn [andb negb]; try reflexivity; lia.
Qed.

(** On a file that follows the interface [TestConfiguration], the
    validation of the parsed value is the validation of the typed model:
    the same errors, the same [TypeError]s, the same answer. *)
Lemma validateConfig_typed (to_number : json -> Num.num)
      (c : TestConfiguration) :
  ConfigJson.validateConfig to_number (of_configuration c)
  = ConfigLoader.validateConfig c.
Proof.
  rewrite validateConfig_value by discriminate. cbv zeta.
  unfold required_errors. cbv zeta.
  rewrite excel_of, browser_of.
  rewrite credentials_of, timeouts_of, viewport_of, baseUrl_of.
  rewrite username_of, password_of, navigation_of, width_of, height_of.
  rewrite !truthy_of_string, !truthy_of_number, below_1000_of_number.
  unfold ConfigLoader.validateConfig, validation_errors. cbv zeta.
  destruct (0 <? _)%nat; [reflexivity|].
  destruct (excel c) as [ex|]; [|reflexivity].
  change (member (option_map of_excel (Some ex)) "credentials")
    with (inr (optional (option_map of_excel (Some ex)) "credentials")
          : error + value).
  rewrite credentials_of. cbn [chain].
  destruct (credentials ex) as [cr|]; [|reflexivity].
  change (member (option_map of_credentials (Some cr)) "username")
    with (inr (optional (option_map of_credentials (Some cr)) "username")
          : error + value).
  rewrite username_of. cbn [chain].
  now destruct (username cr).
Qed.

End ConfigJsonFacts.
